(** * Mini NMS: probe firmware (mini_nms.ino) and desktop viewer (nms_view.pde)

    A shallow embedding of the monitoring state machine, the alarm
    scheduler, the target registry, the telemetry and command handlers of
    the M5 probe, and of the snapshot reconciliation of the Processing
    viewer, followed by the properties established about them.

    Conventions.
    - [uint8_t] and [uint32_t] values are integers of [Z] kept in range by
      an explicit reduction ([u8], [u32]) wherever the C++ arithmetic can
      leave the range.
    - [float] is IEEE binary32, computed with the executable
      specification of the Standard Library ([SpecFloat], precision 24,
      maximal exponent 128).
    - The global variables of the sketch become record fields that are
      passed in and returned; calls into the board support library
      (speaker, clock, Wi-Fi status, ping) become explicit inputs and an
      explicit list of emitted sounds.
    - JSON documents are trees; turning a tree into text and back is the
      work of ArduinoJson and of Processing, and is taken as a parameter. *)

From Stdlib Require Import ZArith Lia Bool String Ascii List.
From Stdlib Require Import Floats.SpecFloat.
From stdpp Require Import base option list gmap strings pretty.

Local Open Scope string_scope.
Local Open Scope list_scope.
Local Open Scope Z_scope.

#[local] Set Warnings "-register-all".

(** ** Machine integers *)

Definition u8 (z : Z) : Z := z mod 256.
Definition u32 (z : Z) : Z := z mod 4294967296.

(** [int] (32-bit, two's complement) holding the integer [z] reduced. *)
Definition s32 (z : Z) : Z := (z + 2147483648) mod 4294967296 - 2147483648.
Definition s64 (z : Z) : Z :=
  (z + 9223372036854775808) mod 18446744073709551616 - 9223372036854775808.

(** ** Binary32 floating point *)

Module F32.
Definition float : Type := spec_float.
Definition prec : Z := 24.
Definition emax : Z := 128.

Definition add (x y : float) : float := SFadd prec emax x y.
Definition div (x y : float) : float := SFdiv prec emax x y.
Definition of_Z (z : Z) : float := binary_normalize prec emax z 0 false.

(** [0.0f] and [-1.0f]. *)
Definition zero : float := S754_zero false.
Definition neg1 : float := Eval cbv in of_Z (-1).

(** Java's narrowing of a floating value to [int] / [long]: truncation
    toward zero, saturating, with NaN sent to 0. *)
Definition trunc (lo hi : Z) (x : float) : Z :=
  match x with
  | S754_zero _ => 0
  | S754_nan => 0
  | S754_infinity s => if s then lo else hi
  | S754_finite s m e =>
      let mag := if 0 <=? e then Z.shiftl (Z.pos m) e
                 else Z.shiftr (Z.pos m) (- e) in
      let v := if s then - mag else mag in
      Z.max lo (Z.min hi v)
  end.

(** Java's [(float)] cast of a double (binary64, precision 53). *)
Definition of_double (d : spec_float) : float :=
  match d with
  | S754_finite s m e => binary_normalize prec emax (cond_Zopp s (Z.pos m)) e s
  | _ => d
  end.
End F32.

Module F64.
Definition double : Type := spec_float.
Definition of_Z (z : Z) : double := binary_normalize 53 1024 z 0 false.
End F64.

Abbreviation float := F32.float.

(** ** JSON documents

    The value tree shared by ArduinoJson's [JsonDocument] and by
    Processing's [JSONObject]/[JSONArray].  A number written by the probe
    from a C++ integer is a [JInt]; one written from a [float] is a
    [JFloat] and carries the binary32 value (ArduinoJson widens it to a
    double and the viewer narrows the double it reads back with a
    [(float)] cast, so the binary32 value is what travels).  An object is
    the list of its members in document order. *)

Inductive json : Type :=
| JNull
| JBool (b : bool)
| JInt (z : Z)
| JFloat (f : float)
| JString (s : string)
| JArray (l : list json)
| JObject (m : list (string * json)).

Fixpoint assoc (key : string) (m : list (string * json)) : option json :=
  match m with
  | [] => None
  | (k, v) :: m' => if String.eqb k key then Some v else assoc key m'
  end.

(** [doc[key]]: the member of an object, nothing on any other value. *)
Definition member (doc : json) (key : string) : option json :=
  match doc with
  | JObject m => assoc key m
  | _ => None
  end.

(** * The probe: mini_nms.ino *)

(** ** Targets *)

Record Target : Type := mkTarget {
  name : string;          (* char name[16] *)
  host : string;          (* char host[48] *)
  intervalMs : Z;         (* uint32_t *)
  lastCheckMs : Z;        (* uint32_t *)
  consecOk : Z;           (* uint8_t *)
  consecFail : Z;         (* uint8_t *)
  isDown : bool;
  lastAvgRtt : float;
  lastChangeMs : Z;       (* uint32_t *)
  downStartMs : Z         (* uint32_t *)
}.

Definition set_name (v : string) (t : Target) : Target :=
  mkTarget v (host t) (intervalMs t) (lastCheckMs t) (consecOk t)
    (consecFail t) (isDown t) (lastAvgRtt t) (lastChangeMs t) (downStartMs t).
Definition set_host (v : string) (t : Target) : Target :=
  mkTarget (name t) v (intervalMs t) (lastCheckMs t) (consecOk t)
    (consecFail t) (isDown t) (lastAvgRtt t) (lastChangeMs t) (downStartMs t).
Definition set_intervalMs (v : Z) (t : Target) : Target :=
  mkTarget (name t) (host t) v (lastCheckMs t) (consecOk t)
    (consecFail t) (isDown t) (lastAvgRtt t) (lastChangeMs t) (downStartMs t).
Definition set_lastCheckMs (v : Z) (t : Target) : Target :=
  mkTarget (name t) (host t) (intervalMs t) v (consecOk t)
    (consecFail t) (isDown t) (lastAvgRtt t) (lastChangeMs t) (downStartMs t).
Definition set_consecOk (v : Z) (t : Target) : Target :=
  mkTarget (name t) (host t) (intervalMs t) (lastCheckMs t) v
    (consecFail t) (isDown t) (lastAvgRtt t) (lastChangeMs t) (downStartMs t).
Definition set_consecFail (v : Z) (t : Target) : Target :=
  mkTarget (name t) (host t) (intervalMs t) (lastCheckMs t) (consecOk t)
    v (isDown t) (lastAvgRtt t) (lastChangeMs t) (downStartMs t).
Definition set_isDown (v : bool) (t : Target) : Target :=
  mkTarget (name t) (host t) (intervalMs t) (lastCheckMs t) (consecOk t)
    (consecFail t) v (lastAvgRtt t) (lastChangeMs t) (downStartMs t).
Definition set_lastAvgRtt (v : float) (t : Target) : Target :=
  mkTarget (name t) (host t) (intervalMs t) (lastCheckMs t) (consecOk t)
    (consecFail t) (isDown t) v (lastChangeMs t) (downStartMs t).
Definition set_lastChangeMs (v : Z) (t : Target) : Target :=
  mkTarget (name t) (host t) (intervalMs t) (lastCheckMs t) (consecOk t)
    (consecFail t) (isDown t) (lastAvgRtt t) v (downStartMs t).
Definition set_downStartMs (v : Z) (t : Target) : Target :=
  mkTarget (name t) (host t) (intervalMs t) (lastCheckMs t) (consecOk t)
    (consecFail t) (isDown t) (lastAvgRtt t) (lastChangeMs t) v.

(** An element of the global array [tgts] before anything is stored in
    it: zeroed character arrays and interval, and the default member
    initialisers of the struct. *)
Definition Target0 : Target :=
  mkTarget "" "" 0 0 0 0 false F32.neg1 0 0.

#[global] Instance Target_inhabited : Inhabited Target := populate Target0.

Definition MAX_TGT : nat := 12.

Definition FAIL_TH : Z := 3.
Definition REC_TH : Z := 2.
Definition PING_TRY : nat := 4.

(** ** Alarm *)

Definition BUZZER_ENABLE : bool := true.
Definition ALARM_MAX_MS : Z := 60000.

Record Alarm : Type := mkAlarm {
  alarmActive : bool;
  alarmStartMs : Z;       (* uint32_t *)
  alarmNextMs : Z;        (* uint32_t *)
  alarmStep : Z           (* int *)
}.

(** What the sketch asks of [M5.Speaker]. *)
Inductive Sound : Type :=
| SetVolume (v : Z)
| Tone (freq dur : Z)
| SpeakerStop.

Definition stopAlarm (a : Alarm) : Alarm * list Sound :=
  (mkAlarm false (alarmStartMs a) (alarmNextMs a) (alarmStep a), [SpeakerStop]).

(** [now] is the value of [millis()] read by the tick, [btnA] and [btnB]
    are [M5.BtnA.wasPressed()] and [M5.BtnB.wasPressed()]. *)
Definition alarmTick (now : Z) (btnA btnB : bool) (a : Alarm)
  : Alarm * list Sound :=
  if negb (alarmActive a) then (a, [])
  else if ALARM_MAX_MS <=? u32 (now - alarmStartMs a) then stopAlarm a
  else if btnA || btnB then stopAlarm a
  else if alarmNextMs a <=? now then
    if alarmStep a =? 0 then
      (mkAlarm (alarmActive a) (alarmStartMs a) (u32 (now + 300)) 1,
       [SetVolume 255; Tone 650 180])
    else if alarmStep a =? 1 then
      (mkAlarm (alarmActive a) (alarmStartMs a) (u32 (now + 300)) 2,
       [SetVolume 255; Tone 650 180])
    else
      (mkAlarm (alarmActive a) (alarmStartMs a) (u32 (now + 1000)) 0,
       [SetVolume 255; Tone 650 220])
  else (a, []).

Definition beepDown (now : Z) (a : Alarm) : Alarm * list Sound :=
  if negb BUZZER_ENABLE then (a, [])
  else (mkAlarm true now 0 0, []).

Definition beepUp (a : Alarm) : Alarm * list Sound :=
  if negb BUZZER_ENABLE then (a, [])
  else
    let '(a1, out) := stopAlarm a in
    (a1, out ++ [SetVolume 230; Tone 1500 160]).

(** ** Health check *)

(** What one call of [checkOne] reads from its surroundings: the Wi-Fi
    status, the outcome of each ping round ([Some rtt] when
    [Ping.ping(host, 1)] succeeds, with [rtt] the value of
    [Ping.averageTime()]), and the two readings of [millis()] made on a
    transition, by [logTransition] and then by [beepDown]. *)
Record CheckEnv : Type := mkCheckEnv {
  wifiConnected : bool;
  ping : nat -> option float;
  millisLog : Z;
  millisBeep : Z
}.

Definition logTransition (toDown : bool) (e : CheckEnv) (t : Target) (a : Alarm)
  : Target * Alarm * list Sound :=
  let t1 := set_lastChangeMs (millisLog e) t in
  if toDown then
    let t2 := set_downStartMs (lastChangeMs t1) t1 in
    let '(a1, out) := beepDown (millisBeep e) a in
    (t2, a1, out)
  else
    let t2 := set_downStartMs 0 t1 in
    let '(a1, out) := beepUp a in
    (t2, a1, out).

(** The [for] loop of [icmpAvgMs]: [n] rounds left, [i] the round index. *)
Fixpoint icmpRounds (png : nat -> option float) (n i : nat) (sum : float) (ok : Z)
  : float * Z :=
  match n with
  | O => (sum, ok)
  | S n' =>
      match png i with
      | Some rtt => icmpRounds png n' (S i) (F32.add sum rtt) (ok + 1)
      | None => icmpRounds png n' (S i) sum ok
      end
  end.

Definition icmpAvgMs (png : nat -> option float) : bool * float :=
  let '(sum, ok) := icmpRounds png PING_TRY 0%nat F32.zero 0 in
  if 0 <? ok then (true, F32.div sum (F32.of_Z ok))
  else (false, F32.neg1).

Definition checkOne (e : CheckEnv) (t : Target) (a : Alarm)
  : Target * Alarm * list Sound :=
  let '(up, avg) :=
    if wifiConnected e then icmpAvgMs (ping e) else (false, F32.neg1) in
  let t1 := set_lastAvgRtt (if up then avg else F32.neg1) t in
  if up then
    let t2 := set_consecFail 0 (set_consecOk (u8 (consecOk t1 + 1)) t1) in
    if isDown t2 && (REC_TH <=? consecOk t2)
    then logTransition false e (set_isDown false t2) a
    else (t2, a, [])
  else
    let t2 := set_consecOk 0 (set_consecFail (u8 (consecFail t1 + 1)) t1) in
    if negb (isDown t2) && (FAIL_TH <=? consecFail t2)
    then logTransition true e (set_isDown true t2) a
    else (t2, a, []).

(** ** Registry *)

(** The global array [tgts] (always [MAX_TGT] elements, those from index
    [N_TGT] on being unused storage) and the counter [N_TGT]. *)
Record Registry : Type := mkRegistry {
  tgts : list Target;
  N_TGT : nat
}.

(** The array before [setup] runs. *)
Definition tgts0 : list Target := replicate MAX_TGT Target0.

(** [strncpy(dst, src, n)] followed by a terminator at [dst[n]], read
    back as a C string: the first [n] characters of [src]. *)
Definition strncpy (n : nat) (src : string) : string := substring 0 n src.

Definition addDefaultTargets (r : Registry) : Registry :=
  let tg := tgts r in
  let tg := <[0%nat := set_intervalMs 5000
              (set_host (strncpy 48 "192.168.11.200")
                (set_name (strncpy 16 "zabbix") (tg !!! 0%nat)))]> tg in
  let tg := <[1%nat := set_intervalMs 7000
              (set_host (strncpy 48 "8.8.8.8")
                (set_name (strncpy 16 "DNS1") (tg !!! 1%nat)))]> tg in
  let tg := <[2%nat := set_intervalMs 7000
              (set_host (strncpy 48 "1.1.1.1")
                (set_name (strncpy 16 "DNS2") (tg !!! 2%nat)))]> tg in
  mkRegistry tg 3.

(** The scan of [findByName], at index [i] with [n] indices left;
    [None] stands for the result [-1]. *)
Fixpoint findFrom (tg : list Target) (key : string) (i n : nat) : option nat :=
  match n with
  | O => None
  | S n' =>
      if String.eqb (name (tg !!! i)) key then Some i
      else findFrom tg key (S i) n'
  end.

Definition findByName (key : string) (r : Registry) : option nat :=
  findFrom (tgts r) key 0 (N_TGT r).

Definition addTarget (nm hst : string) (itvl : Z) (r : Registry)
  : bool * Registry :=
  if (MAX_TGT <=? N_TGT r)%nat then (false, r)
  else
    let n := N_TGT r in
    let t := tgts r !!! n in
    let t := set_name (strncpy 15 nm) t in
    let t := set_host (strncpy 47 hst) t in
    let t := set_intervalMs itvl t in
    let t := set_lastAvgRtt F32.neg1
              (set_isDown false
                (set_consecFail 0
                  (set_consecOk 0
                    (set_lastCheckMs 0 t)))) in
    (true, mkRegistry (<[n := t]> (tgts r)) (S n)).

(** The compaction loop of [delTargetByName]: [tgts[i] = tgts[i+1]] for
    [n] successive indices from [i]. *)
Fixpoint shiftDown (tg : list Target) (i n : nat) : list Target :=
  match n with
  | O => tg
  | S n' => shiftDown (<[i := tg !!! S i]> tg) (S i) n'
  end.

Definition delTargetByName (key : string) (r : Registry) : bool * Registry :=
  match findByName key r with
  | None => (false, r)
  | Some idx =>
      (true, mkRegistry (shiftDown (tgts r) idx (N_TGT r - 1 - idx))
                        (N_TGT r - 1))
  end.

Definition setIntervalByName (key : string) (itvl : Z) (r : Registry)
  : bool * Registry :=
  match findByName key r with
  | None => (false, r)
  | Some idx =>
      (true, mkRegistry (<[idx := set_intervalMs itvl (tgts r !!! idx)]> (tgts r))
                        (N_TGT r))
  end.

(** ** ArduinoJson readers

    [doc[key] | dflt]: the member when it holds a value of the type of
    [dflt], and [dflt] otherwise.  With an [int] default only an integer
    that fits [int] is taken. *)
Definition orString (v : option json) (dflt : string) : string :=
  match v with
  | Some (JString s) => s
  | _ => dflt
  end.

Definition orInt (v : option json) (dflt : Z) : Z :=
  match v with
  | Some (JInt z) =>
      if (-2147483648 <=? z) && (z <=? 2147483647) then z else dflt
  | _ => dflt
  end.

(** [strlen(s) != 0] *)
Definition nonEmpty (s : string) : bool := negb (String.eqb s "").

(** A datagram handed to [udpTx]. *)
Record Packet : Type := mkPacket {
  dstAddr : string;
  dstPort : Z;
  payload : string
}.

Definition UDP_TELEM_PORT : Z := 5005.
Definition UDP_CMD_PORT : Z := 5006.

(** What one call of [sendTelemetryUDP] reads: the Wi-Fi status, the
    clock for the [ts] of the snapshot, whether [malloc] succeeds, and
    the clock for the [ts] of each per-item datagram. *)
Record TelemEnv : Type := mkTelemEnv {
  telemWifi : bool;
  telemMillis : Z;
  mallocOk : bool;
  itemMillis : nat -> Z
}.

Definition itemJson (t : Target) : json :=
  JObject [("name", JString (name t));
           ("host", JString (host t));
           ("down", JInt (if isDown t then 1 else 0));
           ("rtt", JFloat (lastAvgRtt t))].

Definition telemetryDoc (ts : Z) (r : Registry) : json :=
  JObject [("ts", JInt ts);
           ("items", JArray (map (fun i => itemJson (tgts r !!! i))
                                 (seq 0 (N_TGT r))))].

Definition itemDoc (ts : Z) (t : Target) : json :=
  JObject [("ts", JInt ts); ("items", JArray [itemJson t])].

(** The monitoring state of the sketch: registry and alarm. *)
Record State : Type := mkState {
  reg : Registry;
  alarm : Alarm
}.

(** What one pass of [loop()] reads: the two buttons as latched by
    [M5.update()], the clock in [alarmTick], the pending command
    datagram, the clock read before the monitoring loop, and the
    surroundings of the check of each index. *)
Record LoopEnv : Type := mkLoopEnv {
  btnA : bool;
  btnB : bool;
  millisAlarm : Z;
  cmdPacket : option string;
  millisSched : Z;
  checkEnv : nat -> CheckEnv
}.

Section Firmware.

(** ArduinoJson: [deserializeJson] on a buffer ([None] on an error) and
    [serializeJson] to minified text; [measureJson] is the length of
    that text. *)
Variable deserializeJson : string -> option json.
Variable serializeJson : json -> string.

Definition measureJson (doc : json) : nat := String.length (serializeJson doc).

(** [packet] is the pending datagram on the command port, [None] when
    [parsePacket] reports nothing. *)
Definition handleCommandUDP (packet : option string) (r : Registry) : Registry :=
  match packet with
  | None => r
  | Some data =>
      let buf := substring 0 511 data in
      if (String.length buf =? 0)%nat then r
      else
        match deserializeJson buf with
        | None => r
        | Some doc =>
            let cmd := orString (member doc "cmd") "" in
            let nm := orString (member doc "name") "" in
            if String.eqb cmd "add" then
              let hst := orString (member doc "host") "" in
              let itvl := u32 (orInt (member doc "itvl") 6000) in
              if nonEmpty nm && nonEmpty hst
              then snd (addTarget nm hst itvl r) else r
            else if String.eqb cmd "del" then
              if nonEmpty nm then snd (delTargetByName nm r) else r
            else if String.eqb cmd "set" then
              let itvl := u32 (orInt (member doc "itvl") 0) in
              if nonEmpty nm && (0 <? itvl)
              then snd (setIntervalByName nm itvl r) else r
            else r
        end
  end.

Definition sendTelemetryUDP (e : TelemEnv) (r : Registry) : list Packet :=
  if negb (telemWifi e) then []
  else
    let doc := telemetryDoc (telemMillis e) r in
    let need := measureJson doc in
    if (need <=? 1400)%nat then
      if negb (mallocOk e) then []
      else [mkPacket "192.168.11.255" UDP_TELEM_PORT
              (substring 0 (need + 4) (serializeJson doc))]
    else
      map (fun i =>
             mkPacket "255.255.255.255" UDP_TELEM_PORT
               (substring 0 256
                  (serializeJson (itemDoc (itemMillis e i) (tgts r !!! i)))))
          (seq 0 (N_TGT r)).

(** ** Scheduler loop *)

(** The body of the monitoring loop for index [i]; [now] is the value
    of [millis()] read once before the loop. *)
Definition scheduleOne (now : Z) (e : CheckEnv) (i : nat) (s : State)
  : State * list Sound :=
  let t := tgts (reg s) !!! i in
  if intervalMs t <=? u32 (now - lastCheckMs t) then
    let '(t1, a1, out) := checkOne e (set_lastCheckMs now t) (alarm s) in
    (mkState (mkRegistry (<[i := t1]> (tgts (reg s))) (N_TGT (reg s))) a1, out)
  else (s, []).

Fixpoint schedulerFrom (now : Z) (es : nat -> CheckEnv) (i n : nat) (s : State)
  : State * list Sound :=
  match n with
  | O => (s, [])
  | S n' =>
      let '(s1, out1) := scheduleOne now (es i) i s in
      let '(s2, out2) := schedulerFrom now es (S i) n' s1 in
      (s2, out1 ++ out2)
  end.

Definition scheduler (now : Z) (es : nat -> CheckEnv) (s : State)
  : State * list Sound :=
  schedulerFrom now es 0 (N_TGT (reg s)) s.

(** One pass of [loop()] over the monitoring state.  The Wi-Fi
    reconnection, the redraw and the telemetry emission of the pass
    leave this state alone; the telemetry is [sendTelemetryUDP]. *)
Definition loop (e : LoopEnv) (s : State) : State * list Sound :=
  let '(a1, out1) := alarmTick (millisAlarm e) (btnA e) (btnB e) (alarm s) in
  let '(a2, out2) :=
    if btnA e then (if alarmActive a1 then stopAlarm a1 else (a1, []))
    else (a1, []) in
  let '(a3, out3) := if btnB e then stopAlarm a2 else (a2, []) in
  let r1 := handleCommandUDP (cmdPacket e) (reg s) in
  let '(s1, out4) := scheduler (millisSched e) (checkEnv e) (mkState r1 a3) in
  (s1, out1 ++ out2 ++ out3 ++ out4).

(** The state after [setup()], and after a run of passes. *)
Definition boot : State :=
  mkState (addDefaultTargets (mkRegistry tgts0 0)) (mkAlarm false 0 0 0).

Definition run (es : list LoopEnv) : State :=
  fold_left (fun s e => fst (loop e s)) es boot.

End Firmware.

(** ** Wi-Fi reconnection *)

(** The globals [wifiLastAttemptMs] and [wifiRetryInterval]. *)
Record WifiRetry : Type := mkWifiRetry {
  wifiLastAttemptMs : Z;    (* uint32_t *)
  wifiRetryInterval : Z     (* uint32_t *)
}.

(** [connected] is [WiFi.status() == WL_CONNECTED], [now] the value of
    [millis()].  The boolean returned tells whether a reconnection was
    started ([WiFi.disconnect] then [WiFi.begin]). *)
Definition ensureWiFi (connected : bool) (now : Z) (w : WifiRetry)
  : WifiRetry * bool :=
  if connected then (mkWifiRetry (wifiLastAttemptMs w) 0, false)
  else if u32 (now - wifiLastAttemptMs w) <? wifiRetryInterval w then (w, false)
  else
    (mkWifiRetry now
       (if wifiRetryInterval w =? 0 then 2000
        else Z.min (u32 (wifiRetryInterval w * 2)) 60000),
     true).

(** ** Dashboard *)

Definition GRID_COLS : Z := 3.

(** [gridRows()], with [n] the value of [N_TGT]; [int] division
    truncates. *)
Definition gridRows (n : Z) : Z := Z.quot (n + GRID_COLS - 1) GRID_COLS.

(** The cell of target [i] on a screen of [width] by [height] pixels:
    its origin [(x, y)] and its size [(w, h)], as [drawDashboard]
    computes them. *)
Definition dashCell (width height n i : Z) : Z * Z * Z * Z :=
  let rows := Z.max 1 (gridRows n) in
  let w := Z.quot width GRID_COLS in
  let h := Z.quot height rows in
  let r := Z.quot i GRID_COLS in
  let c := Z.rem i GRID_COLS in
  (c * w, r * h, w, h).

Inductive Color : Type := RED | YELLOW | GREEN.

(** The fill colour of a cell of [drawDashboard]. *)
Definition dashFill (t : Target) : Color :=
  if isDown t then RED
  else if 0 <? consecFail t then YELLOW else GREEN.

(** ** Screen mode *)

Inductive UIMode : Type := UI_DASH | UI_INFO.

(** What [loop()] does to [uiMode] on button A: [a] is the alarm when
    the pass begins; the test of [alarmActive] comes after the call of
    [alarmTick] of the same pass. *)
Definition buttonA_uiMode (e : LoopEnv) (a : Alarm) (ui : UIMode) : UIMode :=
  let a1 := (alarmTick (millisAlarm e) (btnA e) (btnB e) a).1 in
  if btnA e then
    if alarmActive a1 then ui
    else match ui with UI_DASH => UI_INFO | UI_INFO => UI_DASH end
  else ui.

(** * The viewer: nms_view.pde *)

Module Viewer.

(** [class Item]; a Java [String] field may hold [null] ([None]). *)
Record Item : Type := mkItem {
  name : option string;
  host : option string;
  down : bool;
  rtt : float
}.

(** [new Item()] *)
Definition newItem : Item := mkItem None None false F32.zero.

#[global] Instance Item_inhabited : Inhabited Item := populate newItem.

(** The sketch's globals.  [Item] objects live in [heap] and are
    designated by their index; [items] is the [ArrayList] of
    references that is drawn. *)
Record View : Type := mkView {
  heap : list Item;
  items : list nat;
  lastUpdateTs : Z       (* long *)
}.

(** What [drawGrid] shows. *)
Definition display (v : View) : list Item :=
  map (fun r => heap v !!! r) (items v).

Section Reconciler.

(** Processing's [parseJSONObject] applied to the decoded datagram
    ([None] when it yields [null] or throws), and the number parsers
    of [java.lang] that Processing falls back to when a member read
    as a number holds a string. *)
Variable parseJSONObject : string -> option json.
Variable parseInt : string -> option Z.
Variable parseLong : string -> option Z.
Variable parseDouble : string -> option F64.double.

(** Processing's [JSONObject] readers.  On the outside [None] is a
    thrown exception; [getString] and [getJSONArray] return [null]
    (an inner [None]) for a missing key. *)
Definition getLong (o : list (string * json)) (key : string) : option Z :=
  match assoc key o with
  | Some (JInt z) => Some (s64 z)
  | Some (JFloat f) =>
      Some (F32.trunc (-9223372036854775808) 9223372036854775807 f)
  | Some (JString s) => parseLong s
  | _ => None
  end.

Definition getLongOr (o : list (string * json)) (key : string) (dflt : Z) : Z :=
  default dflt (getLong o key).

Definition getInt (o : list (string * json)) (key : string) : option Z :=
  match assoc key o with
  | Some (JInt z) => Some (s32 z)
  | Some (JFloat f) => Some (F32.trunc (-2147483648) 2147483647 f)
  | Some (JString s) => parseInt s
  | _ => None
  end.

(** [(float) o.getDouble(key, dflt)] *)
Definition getFloatOr (o : list (string * json)) (key : string) (dflt : float)
  : float :=
  match assoc key o with
  | Some (JInt z) => F32.of_double (F64.of_Z z)
  | Some (JFloat f) => f
  | Some (JString s) =>
      match parseDouble s with
      | Some d => F32.of_double d
      | None => dflt
      end
  | _ => dflt
  end.

Definition getString (o : list (string * json)) (key : string)
  : option (option string) :=
  match assoc key o with
  | None => Some None
  | Some (JString s) => Some (Some s)
  | Some _ => None
  end.

Definition getJSONArray (o : list (string * json)) (key : string)
  : option (option (list json)) :=
  match assoc key o with
  | None => Some None
  | Some (JArray l) => Some (Some l)
  | Some _ => None
  end.

(** The reads made on element [x] of the array: [getJSONObject(i)]
    and the four fields. *)
Definition readItem (x : json) : option Item :=
  match x with
  | JObject o =>
      nm ← getString o "name";
      hst ← getString o "host";
      dwn ← getInt o "down";
      Some (mkItem nm hst (dwn =? 1) (getFloatOr o "rtt" F32.neg1))
  | _ => None
  end.

(** [for (Item it : items) map.put(it.name, it)] *)
Definition buildMap (hp : list Item) (its : list nat) : gmap (option string) nat :=
  fold_left (fun m r => <[name (hp !!! r) := r]> m) its ∅.

(** The loop over the received array.  Each element either reuses the
    object the map holds for its name or allocates one, and writes
    the four fields into it.  The heap is returned in every case; the
    list [next] only when no read threw. *)
Fixpoint mergeItems (arr : list json) (mp : gmap (option string) nat)
    (hp : list Item) (next : list nat) : list Item * option (list nat) :=
  match arr with
  | [] => (hp, Some next)
  | x :: arr' =>
      match readItem x with
      | None => (hp, None)
      | Some it =>
          let '(r, hp1) :=
            match mp !! name it with
            | Some r => (r, hp)
            | None => (length hp, hp ++ [newItem])
            end in
          mergeItems arr' mp (<[r := it]> hp1) (next ++ [r])
      end
  end.

(** [rx] is the datagram obtained by [rxSock.receive] ([None] on the
    1 ms timeout), [now] the value of [millis()]. *)
Definition readUdpNonBlocking (rx : option string) (now : Z) (v : View) : View :=
  match rx with
  | None => v
  | Some data =>
      match parseJSONObject (substring 0 2048 data) with
      | Some (JObject jo) =>
          let ts := getLongOr jo "ts" (s32 now) in
          match getJSONArray jo "items" with
          | Some (Some arr) =>
              let mp := buildMap (heap v) (items v) in
              match mergeItems arr mp (heap v) [] with
              | (hp, Some next) => mkView hp next ts
              | (hp, None) => mkView hp (items v) ts
              end
          | _ => mkView (heap v) (items v) ts
          end
      | _ => v
      end
  end.

End Reconciler.

(** ** Grid colours and commands *)

(** The background of a cell of [drawGrid]. *)
Definition cellColor (it : Item) : Color :=
  if down it then RED
  else if SFltb (rtt it) F32.zero then YELLOW else GREEN.

Definition TX_PORT : Z := 5006.

Section CommandText.

(** [JSONObject.toString()] of Processing. *)
Variable jsonToString : json -> string.

(** The three command builders; the members are listed in the order in
    which they are set.  [jsonCmd] does not use its first argument. *)
Definition jsonCmd (cmd nm hst : string) (itvl : Z) : string :=
  jsonToString (JObject [("cmd", JString "add"); ("name", JString nm);
                         ("host", JString hst); ("itvl", JInt itvl)]).

Definition jsonCmdDel (nm : string) : string :=
  jsonToString (JObject [("cmd", JString "del"); ("name", JString nm)]).

Definition jsonCmdSet (nm : string) (itvl : Z) : string :=
  jsonToString (JObject [("cmd", JString "set"); ("name", JString nm);
                         ("itvl", JInt itvl)]).

End CommandText.

End Viewer.

(** * Properties *)

(** ** Vocabulary of the statements *)

(** The number of ping rounds of one check that succeeded: the counter
    [ok] of [icmpAvgMs] when its loop ends. *)
Definition successes (png : nat -> option float) : Z :=
  snd (icmpRounds png PING_TRY 0%nat F32.zero 0).

(** The target after a check that counted as a failure, resp. as a
    success with mean [avg], before any transition is applied. *)
Definition failed (t : Target) : Target :=
  set_consecOk 0 (set_consecFail (u8 (consecFail t + 1))
                    (set_lastAvgRtt F32.neg1 t)).

Definition succeeded (avg : float) (t : Target) : Target :=
  set_consecFail 0 (set_consecOk (u8 (consecOk t + 1))
                      (set_lastAvgRtt avg t)).

(** The two counters are not both non-zero. *)
Definition exclusive (t : Target) : Prop :=
  consecOk t = 0 \/ consecFail t = 0.

(** What the hysteresis maintains: the counters are bytes, a target
    that is down has not yet seen [REC_TH] successes in a row, a target
    that is up has not yet seen [FAIL_TH] failures in a row. *)
Definition hysteresis (t : Target) : Prop :=
  0 <= consecOk t < 256 /\ 0 <= consecFail t < 256 /\
  (isDown t = true -> consecOk t < REC_TH) /\
  (isDown t = false -> consecFail t < FAIL_TH).

(** What holds of every element of [tgts], registered or not. *)
Definition sound (t : Target) : Prop := hysteresis t /\ exclusive t.

Definition regInv (r : Registry) : Prop :=
  length (tgts r) = MAX_TGT /\ (N_TGT r <= MAX_TGT)%nat /\ Forall sound (tgts r).

(** Alarm ticks at the successive clock values [nows] with no button
    pressed. *)
Fixpoint quietTicks (nows : list Z) (a : Alarm) : Alarm :=
  match nows with
  | [] => a
  | now :: nows' => quietTicks nows' (fst (alarmTick now false false a))
  end.

(** The display entry that mirrors a target. *)
Definition itemOf (t : Target) : Viewer.Item :=
  Viewer.mkItem (Some (name t)) (Some (host t)) (isDown t) (lastAvgRtt t).

(** [sameJson a b]: the value [b] is a reading of the text written for
    [a].  The two have the same structure, the same members in the same
    order, and the same strings, booleans and integers; a number written
    from a [float] is read back as that [float], or as an integer whose
    conversion to [float] is that number (a JSON text does not tell 10.0
    from 10, nor -1.0 from -1). *)
Fixpoint sameJson (a b : json) {struct a} : Prop :=
  match a, b with
  | JNull, JNull => True
  | JBool x, JBool y => x = y
  | JInt x, JInt y => x = y
  | JFloat f, JFloat g => f = g
  | JFloat f, JInt z => F32.of_double (F64.of_Z z) = f
  | JString s, JString t => s = t
  | JArray l, JArray l' =>
      (fix all2 (l : list json) (l' : list json) {struct l} : Prop :=
         match l, l' with
         | [], [] => True
         | x :: l0, y :: l0' => sameJson x y /\ all2 l0 l0'
         | _, _ => False
         end) l l'
  | JObject m, JObject m' =>
      (fix all2 (m : list (string * json)) (m' : list (string * json))
           {struct m} : Prop :=
         match m, m' with
         | [], [] => True
         | (k, v) :: m0, (k', v') :: m0' => k = k' /\ sameJson v v' /\ all2 m0 m0'
         | _, _ => False
         end) m m'
  | _, _ => False
  end.

(** A run of checks on one target, each with its own surroundings. *)
Fixpoint checks (es : list CheckEnv) (t : Target) (a : Alarm) : Target * Alarm :=
  match es with
  | [] => (t, a)
  | e :: es' => checks es' (checkOne e t a).1.1 (checkOne e t a).1.2
  end.

(** Whether a check counts as a failure: no link, or no ping round
    answered. *)
Definition checkFails (e : CheckEnv) : bool :=
  negb (wifiConnected e) || (successes (ping e) =? 0).

(** The longest run of consecutive [true] in [os], a run of [cur]
    being already under way when [os] starts. *)
Fixpoint longestRun (cur : nat) (os : list bool) : nat :=
  match os with
  | [] => cur
  | true :: os' => longestRun (S cur) os'
  | false :: os' => Nat.max cur (longestRun 0 os')
  end.

(** Names and hosts fit their character arrays. *)
Definition fitsArrays (t : Target) : Prop :=
  (String.length (name t) <= 15)%nat /\ (String.length (host t) <= 47)%nat.

(** A run of calls of [ensureWiFi], each with the link status and the
    clock it reads. *)
Fixpoint wifiCalls (calls : list (bool * Z)) (w : WifiRetry) : WifiRetry :=
  match calls with
  | [] => w
  | (c, now) :: calls' => wifiCalls calls' (ensureWiFi c now w).1
  end.

(** A run of calls of [ensureWiFi] each of which starts a reconnection. *)
Fixpoint allAttempt (calls : list (bool * Z)) (w : WifiRetry) : Prop :=
  match calls with
  | [] => True
  | (c, now) :: calls' =>
      (ensureWiFi c now w).2 = true /\ allAttempt calls' (ensureWiFi c now w).1
  end.

(** The retry interval after [k] reconnections in a row. *)
Definition backoff (k : nat) : Z :=
  match k with
  | O => 0
  | S k' => Z.min (2000 * 2 ^ Z.of_nat k') 60000
  end.

(** Every reference of the displayed list designates an object. *)
Definition viewWf (v : Viewer.View) : Prop :=
  Forall (fun r => (r < length (Viewer.heap v))%nat) (Viewer.items v).

(** The alarm is silent, or was armed by a check and has not beeped. *)
Definition silentOrArmed (a : Alarm) : Prop :=
  alarmActive a = false \/ exists now : Z, a = mkAlarm true now 0 0.

(** ** A stand-in for the JSON libraries

    The worked examples need some concrete text form of a document.
    [demoText] writes one in the manner of minified JSON (a [float] is
    written as mantissa, [p], binary exponent); [demoParse known] reads
    a text back by looking for it among the documents [known]; and
    [noNumber] is a number parser that accepts no string. *)

Definition dquote : string := String "034"%char "".

Definition demoFloat (f : float) : string :=
  match f with
  | S754_zero s => if s then "-0.0" else "0.0"
  | S754_infinity s => if s then "-inf" else "inf"
  | S754_nan => "nan"
  | S754_finite s m e =>
      (if s then "-" else "") +:+ pretty (Z.pos m) +:+ "p" +:+ pretty e
  end.

Fixpoint demoText (d : json) : string :=
  match d with
  | JNull => "null"
  | JBool b => if b then "true" else "false"
  | JInt z => pretty z
  | JFloat f => demoFloat f
  | JString s => dquote +:+ s +:+ dquote
  | JArray l => "[" +:+ String.concat "," (map demoText l) +:+ "]"
  | JObject m =>
      "{" +:+ String.concat ","
                (map (fun '(k, v) => dquote +:+ k +:+ dquote +:+ ":" +:+ demoText v) m)
          +:+ "}"
  end.

Definition demoParse (known : list json) (s : string) : option json :=
  List.find (fun d => String.eqb (demoText d) s) known.

Definition noNumber {A : Type} (s : string) : option A := None.

(** ** Scenarios *)

(** A check made with the Wi-Fi link down, and one made with the link
    up in which only the first ping round succeeds, in [rtt] ms. *)
Definition offlineCheck (now : Z) : CheckEnv :=
  mkCheckEnv false (fun _ => None) now now.

Definition oneReply (rtt now : Z) : CheckEnv :=
  mkCheckEnv true (fun i => match i with O => Some (F32.of_Z rtt) | _ => None end)
    now now.

(** A pass of [loop()] at time [now] with no button pressed, the
    pending command [packet], and the same surroundings [e] for every
    check that is due. *)
Definition pass (now : Z) (packet : option string) (e : CheckEnv) : LoopEnv :=
  mkLoopEnv false false now packet now (fun _ => e).

(** The commands [add DNS1 9.9.9.9 6000], [set DNS1 0] and
    [set DNS1 9000]. *)
Definition addDns1 : json :=
  JObject [("cmd", JString "add"); ("name", JString "DNS1");
           ("host", JString "9.9.9.9"); ("itvl", JInt 6000)].

Definition setDns1Zero : json :=
  JObject [("cmd", JString "set"); ("name", JString "DNS1"); ("itvl", JInt 0)].

Definition setDns1 : json :=
  JObject [("cmd", JString "set"); ("name", JString "DNS1"); ("itvl", JInt 9000)].

Definition demoCommands : string -> option json :=
  demoParse [addDns1; setDns1Zero; setDns1].

(** The command [add gateway-of-the-lab 10.0.0.1 6000], whose name has
    18 characters. *)
Definition jsonAddLong : json :=
  JObject [("cmd", JString "add"); ("name", JString "gateway-of-the-lab");
           ("host", JString "10.0.0.1"); ("itvl", JInt 6000)].

(** The command [add x 10.0.0.1] with no interval, and a command that
    the probe does not know. *)
Definition jsonAddNoItvl : json :=
  JObject [("cmd", JString "add"); ("name", JString "x"); ("host", JString "10.0.0.1")].

Definition jsonReboot : json :=
  JObject [("cmd", JString "reboot"); ("name", JString "DNS1")].

(** A second stand-in, which writes a space after every comma and
    colon, and the matching parser by lookup. *)
Fixpoint demoSpaced (d : json) : string :=
  match d with
  | JArray l => "[" +:+ String.concat ", " (map demoSpaced l) +:+ "]"
  | JObject m =>
      "{" +:+ String.concat ", "
                (map (fun '(k, v) => dquote +:+ k +:+ dquote +:+ ": " +:+ demoSpaced v) m)
          +:+ "}"
  | _ => demoText d
  end.

Definition spacedParse (known : list json) (s : string) : option json :=
  List.find (fun d => String.eqb (demoSpaced d) s) known.

(** A registry filled with twelve targets of long names and hosts. *)
Definition wideRegistry : Registry :=
  fold_left (fun r i => (addTarget ("probe-target-" +:+ pretty i)
                           ("a-rather-long-host-name.lab.example.org-num-" +:+ pretty i)
                           6000 r).2)
            (seq 10 12) (mkRegistry tgts0 0).

(** The command [set DNS1 3000000000]: an interval that fits the
    [uint32_t] of the registry and the [long] of the viewer, not a C++
    [int]. *)
Definition setDns1Huge : json :=
  JObject [("cmd", JString "set"); ("name", JString "DNS1");
           ("itvl", JInt 3000000000)].

(** A document as a reader without a [float] type for whole numbers
    returns it: the number -1, written from a [float], comes back as the
    integer -1.  [wholeParse known] is the stand-in parser that reads in
    this manner. *)
Fixpoint readBack (d : json) : json :=
  match d with
  | JFloat f => if SFeqb f F32.neg1 then JInt (-1) else JFloat f
  | JArray l => JArray (map readBack l)
  | JObject m => JObject (map (fun '(k, v) => (k, readBack v)) m)
  | _ => d
  end.

Definition wholeParse (known : list json) (s : string) : option json :=
  option_map readBack (demoParse known s).

(** Surroundings of a telemetry emission at time 1000 with the link up. *)
Definition telemAt1000 : TelemEnv := mkTelemEnv true 1000 true (fun _ => 1000).

(** The viewer before any datagram, and its reading of a datagram with
    the stand-in libraries. *)
Definition emptyView : Viewer.View := Viewer.mkView [] [] 0.

Definition demoRead (known : list json) (data : string) (v : Viewer.View)
  : Viewer.View :=
  Viewer.readUdpNonBlocking (demoParse known) noNumber noNumber noNumber
    (Some data) 0 v.

(** A snapshot with one target [a], and a datagram whose first element
    is complete and whose second element has no [down] member. *)
Definition snapshotA : json :=
  JObject [("ts", JInt 100);
           ("items", JArray [JObject [("name", JString "a"); ("host", JString "h1");
                                      ("down", JInt 0); ("rtt", JFloat (F32.of_Z 1))]])].

Definition brokenSnapshot : json :=
  JObject [("ts", JInt 200);
           ("items", JArray [JObject [("name", JString "a"); ("host", JString "h2");
                                      ("down", JInt 1); ("rtt", JFloat F32.neg1)];
                             JObject [("name", JString "b")]])].

(** ** Health check: outcome of one check *)

Lemma successes_nonneg_aux png n i sum ok :
  0 <= ok -> 0 <= snd (icmpRounds png n i sum ok).
Proof.
  revert i sum ok.
  induction n as [|n IH]; intros i sum ok Hok; simpl; [exact Hok|].
  destruct (png i); apply IH; lia.
Qed.

Lemma successes_nonneg png : 0 <= successes png.
Proof. apply successes_nonneg_aux. lia. Qed.

Lemma icmpAvgMs_none png :
  successes png = 0 -> icmpAvgMs png = (false, F32.neg1).
Proof.
  unfold successes, icmpAvgMs.
  destruct (icmpRounds png PING_TRY 0%nat F32.zero 0) as [sum ok]; simpl.
  intros ->. reflexivity.
Qed.

Lemma icmpAvgMs_some png :
  0 < successes png ->
  exists avg, icmpAvgMs png = (true, avg).
Proof.
  unfold successes, icmpAvgMs.
  destruct (icmpRounds png PING_TRY 0%nat F32.zero 0) as [sum ok]; simpl.
  intros Hok. exists (F32.div sum (F32.of_Z ok)).
  destruct (Z.ltb_spec 0 ok); [reflexivity | lia].
Qed.

(** A check without connectivity, or with no successful round, takes
    the failure branch. *)
Lemma checkOne_failure (e : CheckEnv) (t : Target) (a : Alarm) :
  wifiConnected e = false \/ successes (ping e) = 0 ->
  checkOne e t a =
    if negb (isDown t) && (FAIL_TH <=? u8 (consecFail t + 1))
    then (set_downStartMs (millisLog e)
            (set_lastChangeMs (millisLog e) (set_isDown true (failed t))),
          mkAlarm true (millisBeep e) 0 0, [])
    else (failed t, a, []).
Proof.
  intros H. unfold checkOne.
  assert (Hup : (if wifiConnected e then icmpAvgMs (ping e) else (false, F32.neg1))
                = (false, F32.neg1)).
  { destruct H as [-> | H]; [reflexivity|].
    destruct (wifiConnected e); [apply icmpAvgMs_none, H | reflexivity]. }
  rewrite Hup. cbn -[u8 Z.leb].
  destruct (isDown t); cbn -[u8 Z.leb]; [reflexivity|].
  destruct (FAIL_TH <=? u8 (consecFail t + 1)); reflexivity.
Qed.

(** A check with connectivity and a successful round takes the success
    branch, with the mean of the successful rounds. *)
Lemma checkOne_success (e : CheckEnv) (t : Target) (a : Alarm) (avg : float) :
  wifiConnected e = true -> icmpAvgMs (ping e) = (true, avg) ->
  checkOne e t a =
    if isDown t && (REC_TH <=? u8 (consecOk t + 1))
    then (set_downStartMs 0
            (set_lastChangeMs (millisLog e) (set_isDown false (succeeded avg t))),
          mkAlarm false (alarmStartMs a) (alarmNextMs a) (alarmStep a),
          [SpeakerStop; SetVolume 230; Tone 1500 160])
    else (succeeded avg t, a, []).
Proof.
  intros Hw Hp. unfold checkOne. rewrite Hw, Hp. cbn -[u8 Z.leb].
  destruct (isDown t); cbn -[u8 Z.leb]; [|reflexivity].
  destruct (REC_TH <=? u8 (consecOk t + 1)); reflexivity.
Qed.

(** Every check is one or the other. *)
Lemma checkOne_cases (e : CheckEnv) :
  (wifiConnected e = false \/ successes (ping e) = 0) \/
  (exists avg, wifiConnected e = true /\ icmpAvgMs (ping e) = (true, avg)).
Proof.
  destruct (wifiConnected e) eqn:Hw; [|left; left; reflexivity].
  destruct (Z.eq_dec (successes (ping e)) 0) as [H0|H0]; [left; right; exact H0|].
  right. pose proof (successes_nonneg (ping e)).
  destruct (icmpAvgMs_some (ping e)) as [avg Havg]; [lia|].
  exists avg. split; [reflexivity | exact Havg].
Qed.

Lemma u8_range z : 0 <= u8 z < 256.
Proof. unfold u8. apply Z.mod_pos_bound. lia. Qed.

(** C1, as amended.  A check made while the Wi-Fi link is down sends no
    ping and is counted as a failed check: [lastAvgRtt] becomes -1,
    [consecOk] becomes 0 and [consecFail] is incremented (modulo 256).
    When the target was up and [consecFail] thereby reaches [FAIL_TH] it
    goes DOWN: [lastChangeMs] and [downStartMs] take the current time and
    the alarm is armed.  Otherwise [isDown], [lastChangeMs],
    [downStartMs] and the alarm are left as they were.  The check never
    moves a target from DOWN to UP, and no sound is emitted. *)
Theorem checkOne_offline (e : CheckEnv) (t : Target) (a : Alarm) :
  wifiConnected e = false ->
  let t' := (checkOne e t a).1.1 in
  let a' := (checkOne e t a).1.2 in
  lastAvgRtt t' = F32.neg1 /\
  consecOk t' = 0 /\
  consecFail t' = u8 (consecFail t + 1) /\
  (checkOne e t a).2 = [] /\
  (isDown t = true -> isDown t' = true) /\
  (if negb (isDown t) && (FAIL_TH <=? u8 (consecFail t + 1))
   then isDown t' = true /\ lastChangeMs t' = millisLog e /\
        downStartMs t' = millisLog e /\
        a' = mkAlarm true (millisBeep e) 0 0
   else isDown t' = isDown t /\ lastChangeMs t' = lastChangeMs t /\
        downStartMs t' = downStartMs t /\ a' = a).
Proof.
  intros Hw. cbv zeta.
  rewrite (checkOne_failure e t a (or_introl Hw)).
  destruct (negb (isDown t) && (FAIL_TH <=? u8 (consecFail t + 1))) eqn:Hc;
    cbn -[u8]; repeat split; auto.
Qed.

(** C2, as amended.  After a check, [lastAvgRtt] is -1 whenever the
    check had no successful ping round (a check without connectivity
    has none), and whenever the check moved the target to DOWN. *)
Theorem checkOne_rtt_sentinel (e : CheckEnv) (t : Target) (a : Alarm) :
  (wifiConnected e = false \/ successes (ping e) = 0) \/
  (isDown t = false /\ isDown (checkOne e t a).1.1 = true) ->
  lastAvgRtt (checkOne e t a).1.1 = F32.neg1.
Proof.
  assert (Hfail : wifiConnected e = false \/ successes (ping e) = 0 ->
                  lastAvgRtt (checkOne e t a).1.1 = F32.neg1).
  { intros H. rewrite (checkOne_failure e t a H).
    destruct (negb (isDown t) && (FAIL_TH <=? u8 (consecFail t + 1)));
      reflexivity. }
  intros [H | [Hup Hdown]]; [exact (Hfail H)|].
  destruct (checkOne_cases e) as [H | (avg & Hw & Hp)]; [exact (Hfail H)|].
  rewrite (checkOne_success e t a avg Hw Hp) in Hdown.
  rewrite Hup in Hdown. cbn in Hdown. congruence.
Qed.

(** A check with a successful round records the mean it computed,
    whatever the state of the target. *)
Lemma checkOne_rtt_mean (e : CheckEnv) (t : Target) (a : Alarm) (avg : float) :
  wifiConnected e = true -> icmpAvgMs (ping e) = (true, avg) ->
  lastAvgRtt (checkOne e t a).1.1 = avg.
Proof.
  intros Hw Hp. rewrite (checkOne_success e t a avg Hw Hp).
  destruct (isDown t && (REC_TH <=? u8 (consecOk t + 1))); reflexivity.
Qed.

(** ** Hysteresis *)

Lemma hysteresis_Target0 : hysteresis Target0.
Proof. unfold hysteresis, REC_TH, FAIL_TH; cbn. lia. Qed.

(** Closes the arithmetic and boolean side goals of the case analyses
    below. *)
Ltac hyst_close :=
  repeat split;
  first [ lia | congruence
        | intros; first [ lia | congruence ]
        | intros [? ?]; first [ congruence | lia | (split; first [congruence | lia]) ] ].

(** One check keeps the invariant and moves the state exactly at the
    thresholds. *)
Lemma checkOne_hysteresis (e : CheckEnv) (t : Target) (a : Alarm) :
  hysteresis t ->
  let t' := (checkOne e t a).1.1 in
  hysteresis t' /\
  (isDown t = false /\ isDown t' = true <->
   isDown t = false /\ consecFail t' = FAIL_TH) /\
  (isDown t = true /\ isDown t' = false <->
   isDown t = true /\ consecOk t' = REC_TH).
Proof.
  intros (Hok & Hfl & Hdn & Hup). cbv zeta.
  unfold REC_TH, FAIL_TH in *.
  destruct (checkOne_cases e) as [H | (avg & Hw & Hp)].
  - rewrite (checkOne_failure e t a H). unfold FAIL_TH.
    pose proof (u8_range (consecFail t + 1)) as Hr.
    destruct (isDown t) eqn:Hd; cbn -[u8].
    + unfold hysteresis, REC_TH, FAIL_TH; cbn -[u8]. rewrite ?Hd. hyst_close.
    + specialize (Hup eq_refl).
      assert (Hu : u8 (consecFail t + 1) = consecFail t + 1)
        by (unfold u8; apply Z.mod_small; lia).
      rewrite Hu in *.
      destruct (Z.leb_spec 3 (consecFail t + 1)); cbn;
        unfold hysteresis, REC_TH, FAIL_TH; cbn; rewrite ?Hu, ?Hd; hyst_close.
  - rewrite (checkOne_success e t a avg Hw Hp). unfold REC_TH.
    pose proof (u8_range (consecOk t + 1)) as Hr.
    destruct (isDown t) eqn:Hd; cbn -[u8].
    + specialize (Hdn eq_refl).
      assert (Hu : u8 (consecOk t + 1) = consecOk t + 1)
        by (unfold u8; apply Z.mod_small; lia).
      rewrite Hu in *.
      destruct (Z.leb_spec 2 (consecOk t + 1)); cbn;
        unfold hysteresis, REC_TH, FAIL_TH; cbn; rewrite ?Hu, ?Hd; hyst_close.
    + specialize (Hup eq_refl).
      unfold hysteresis, REC_TH, FAIL_TH; cbn -[u8]. rewrite ?Hd. hyst_close.
Qed.

Lemma checkOne_exclusive (e : CheckEnv) (t : Target) (a : Alarm) :
  exclusive (checkOne e t a).1.1.
Proof.
  unfold exclusive.
  destruct (checkOne_cases e) as [H | (avg & Hw & Hp)].
  - rewrite (checkOne_failure e t a H).
    destruct (negb (isDown t) && (FAIL_TH <=? u8 (consecFail t + 1)));
      left; reflexivity.
  - rewrite (checkOne_success e t a avg Hw Hp).
    destruct (isDown t && (REC_TH <=? u8 (consecOk t + 1)));
      right; reflexivity.
Qed.

(** ** Invariants of the registry *)

Lemma sound_Target0 : sound Target0.
Proof. split; [apply hysteresis_Target0 | left; reflexivity]. Qed.

Lemma sound_lookup_total (l : list Target) (i : nat) :
  Forall sound l -> sound (l !!! i).
Proof.
  intros Hl. rewrite list_lookup_total_alt.
  destruct (l !! i) as [t|] eqn:Hi; cbn.
  - exact (Forall_lookup_1 _ _ _ _ Hl Hi).
  - apply sound_Target0.
Qed.

(** Fields that the invariant does not read. *)
Lemma sound_same_counters (t u : Target) :
  consecOk u = consecOk t -> consecFail u = consecFail t ->
  isDown u = isDown t -> sound t -> sound u.
Proof.
  unfold sound, hysteresis, exclusive. intros -> -> ->. tauto.
Qed.

Lemma sound_fresh (t : Target) :
  consecOk t = 0 -> consecFail t = 0 -> isDown t = false -> sound t.
Proof.
  unfold sound, hysteresis, exclusive, REC_TH, FAIL_TH.
  intros -> -> ->. repeat split; try lia; congruence.
Qed.

Lemma checkOne_sound (e : CheckEnv) (t : Target) (a : Alarm) :
  sound t -> sound (checkOne e t a).1.1.
Proof.
  intros [Hh _]. split.
  - apply (checkOne_hysteresis e t a Hh).
  - apply checkOne_exclusive.
Qed.

Lemma regInv_insert (r : Registry) (i : nat) (t : Target) :
  regInv r -> sound t -> regInv (mkRegistry (<[i := t]> (tgts r)) (N_TGT r)).
Proof.
  intros (Hlen & Hn & Hall) Ht. repeat split; cbn.
  - rewrite length_insert. exact Hlen.
  - exact Hn.
  - apply Forall_insert; assumption.
Qed.

Lemma regInv_boot_array : regInv (mkRegistry tgts0 0).
Proof.
  split; [reflexivity|]. split; [cbn; unfold MAX_TGT; lia|].
  apply Forall_replicate, sound_Target0.
Qed.

Lemma addDefaultTargets_inv (r : Registry) :
  regInv r -> regInv (addDefaultTargets r).
Proof.
  intros (Hlen & Hn & Hall). unfold addDefaultTargets.
  repeat split; cbn -[strncpy].
  - rewrite !length_insert. exact Hlen.
  - unfold MAX_TGT. lia.
  - repeat (apply Forall_insert);
      try (eapply sound_same_counters; [..| apply sound_lookup_total];
           [reflexivity | reflexivity | reflexivity |]);
      repeat (apply Forall_insert);
      try (eapply sound_same_counters; [..| apply sound_lookup_total];
           [reflexivity | reflexivity | reflexivity |]);
      repeat (apply Forall_insert);
      try (eapply sound_same_counters; [..| apply sound_lookup_total];
           [reflexivity | reflexivity | reflexivity |]);
      assumption.
Qed.

Lemma addTarget_inv (nm hst : string) (itvl : Z) (r : Registry) :
  regInv r -> regInv (addTarget nm hst itvl r).2.
Proof.
  intros Hr. unfold addTarget.
  destruct (Nat.leb_spec MAX_TGT (N_TGT r)) as [Hfull|Hroom]; [exact Hr|].
  destruct Hr as (Hlen & Hn & Hall). repeat split; cbn -[strncpy].
  - rewrite length_insert. exact Hlen.
  - lia.
  - apply Forall_insert; [exact Hall|]. apply sound_fresh; reflexivity.
Qed.

Lemma shiftDown_length (n i : nat) (tg : list Target) :
  length (shiftDown tg i n) = length tg.
Proof.
  revert i tg. induction n as [|n IH]; intros i tg; cbn; [reflexivity|].
  rewrite IH, length_insert. reflexivity.
Qed.

Lemma shiftDown_sound (n i : nat) (tg : list Target) :
  Forall sound tg -> Forall sound (shiftDown tg i n).
Proof.
  revert i tg. induction n as [|n IH]; intros i tg Htg; cbn; [exact Htg|].
  apply IH, Forall_insert; [exact Htg | apply sound_lookup_total, Htg].
Qed.

Lemma delTargetByName_inv (key : string) (r : Registry) :
  regInv r -> regInv (delTargetByName key r).2.
Proof.
  intros Hr. unfold delTargetByName.
  destruct (findByName key r) as [idx|]; [|exact Hr].
  destruct Hr as (Hlen & Hn & Hall). repeat split; cbn.
  - rewrite shiftDown_length. exact Hlen.
  - lia.
  - apply shiftDown_sound, Hall.
Qed.

Lemma setIntervalByName_inv (key : string) (itvl : Z) (r : Registry) :
  regInv r -> regInv (setIntervalByName key itvl r).2.
Proof.
  intros Hr. unfold setIntervalByName.
  destruct (findByName key r) as [idx|]; [|exact Hr]. cbn.
  apply regInv_insert; [exact Hr|].
  eapply sound_same_counters; [..| apply sound_lookup_total, Hr]; reflexivity.
Qed.

Section RunInvariant.

Variable deserializeJson : string -> option json.

Lemma handleCommandUDP_inv (packet : option string) (r : Registry) :
  regInv r -> regInv (handleCommandUDP deserializeJson packet r).
Proof.
  intros Hr. unfold handleCommandUDP.
  destruct packet as [data|]; [|exact Hr].
  destruct (String.length (substring 0 511 data) =? 0)%nat; [exact Hr|].
  destruct (deserializeJson (substring 0 511 data)) as [doc|]; [|exact Hr].
  repeat match goal with
         | |- context [if ?c then _ else _] => destruct c
         end;
    auto using addTarget_inv, delTargetByName_inv, setIntervalByName_inv.
Qed.

Lemma scheduleOne_inv (now : Z) (e : CheckEnv) (i : nat) (s : State) :
  regInv (reg s) ->
  regInv (reg (scheduleOne now e i s).1) /\
  N_TGT (reg (scheduleOne now e i s).1) = N_TGT (reg s).
Proof.
  intros Hr. unfold scheduleOne.
  destruct (intervalMs (tgts (reg s) !!! i) <=?
            u32 (now - lastCheckMs (tgts (reg s) !!! i))); [|split; auto].
  pose proof (checkOne_sound e (set_lastCheckMs now (tgts (reg s) !!! i)) (alarm s))
    as Hs.
  destruct (checkOne e (set_lastCheckMs now (tgts (reg s) !!! i)) (alarm s))
    as [[t1 a1] out]. cbn in *. split; [|reflexivity].
  apply regInv_insert; [exact Hr|]. apply Hs.
  eapply sound_same_counters; [..| apply sound_lookup_total, Hr]; reflexivity.
Qed.

Lemma schedulerFrom_inv (now : Z) (es : nat -> CheckEnv) (n i : nat) (s : State) :
  regInv (reg s) ->
  regInv (reg (schedulerFrom now es i n s).1) /\
  N_TGT (reg (schedulerFrom now es i n s).1) = N_TGT (reg s).
Proof.
  revert i s. induction n as [|n IH]; intros i s Hr; cbn; [split; auto|].
  destruct (scheduleOne_inv now (es i) i s Hr) as [H1 N1].
  destruct (scheduleOne now (es i) i s) as [s1 out1]. cbn in *.
  destruct (IH (S i) s1 H1) as [H2 N2].
  destruct (schedulerFrom now es (S i) n s1) as [s2 out2]. cbn in *.
  split; [exact H2 | congruence].
Qed.

Lemma loop_inv (e : LoopEnv) (s : State) :
  regInv (reg s) -> regInv (reg (loop deserializeJson e s).1).
Proof.
  intros Hr. unfold loop.
  destruct (alarmTick (millisAlarm e) (btnA e) (btnB e) (alarm s)) as [a1 out1].
  destruct (if btnA e then if alarmActive a1 then stopAlarm a1 else (a1, [])
            else (a1, [])) as [a2 out2].
  destruct (if btnB e then stopAlarm a2 else (a2, [])) as [a3 out3].
  pose proof (handleCommandUDP_inv (cmdPacket e) (reg s) Hr) as H1.
  unfold scheduler.
  set (s0 := mkState (handleCommandUDP deserializeJson (cmdPacket e) (reg s)) a3).
  destruct (schedulerFrom_inv (millisSched e) (checkEnv e)
              (N_TGT (reg s0)) 0 s0 H1) as [H2 _].
  destruct (schedulerFrom (millisSched e) (checkEnv e) 0 (N_TGT (reg s0)) s0)
    as [s1 out4].
  exact H2.
Qed.

Lemma regInv_boot : regInv (reg boot).
Proof. apply addDefaultTargets_inv, regInv_boot_array. Qed.

Lemma run_inv (es : list LoopEnv) : regInv (reg (run deserializeJson es)).
Proof.
  unfold run. rewrite <- fold_left_rev_right.
  induction (rev es) as [|e l IH]; cbn; [apply regInv_boot|].
  apply loop_inv, IH.
Qed.

End RunInvariant.

(** ** Properties of every reachable state *)

Section Reachable.

Variable deserializeJson : string -> option json.

(** C3.  In any state the sketch can reach, the check that the
    scheduler makes on an element of [tgts] moves it to DOWN exactly
    when it was up and [consecFail] becomes [FAIL_TH] (3) on that check,
    and moves it to UP exactly when it was down and [consecOk] becomes
    [REC_TH] (2) on that check. *)
Theorem transition_iff_threshold
    (es : list LoopEnv) (i : nat) (now : Z) (e : CheckEnv) (a : Alarm) :
  let t := set_lastCheckMs now (tgts (reg (run deserializeJson es)) !!! i) in
  let t' := (checkOne e t a).1.1 in
  (isDown t = false /\ isDown t' = true <->
   isDown t = false /\ consecFail t' = FAIL_TH) /\
  (isDown t = true /\ isDown t' = false <->
   isDown t = true /\ consecOk t' = REC_TH).
Proof.
  cbv zeta.
  set (t := set_lastCheckMs now (tgts (reg (run deserializeJson es)) !!! i)).
  assert (Ht : hysteresis t).
  { destruct (run_inv deserializeJson es) as (_ & _ & Hall).
    destruct (sound_lookup_total _ i Hall) as [Hh _]. exact Hh. }
  destruct (checkOne_hysteresis e t a Ht) as (_ & Hdown & Hup).
  split; assumption.
Qed.

(** C4.  In any state the sketch can reach, no element of [tgts] has
    both counters non-zero; every check leaves one of the two counters
    at zero, and a target that has just been added has both at zero. *)
Theorem counters_exclusive
    (es : list LoopEnv) (e : CheckEnv) (t : Target) (a : Alarm)
    (nm hst : string) (itvl : Z) :
  let r := reg (run deserializeJson es) in
  Forall exclusive (tgts r) /\
  exclusive (checkOne e t a).1.1 /\
  ((addTarget nm hst itvl r).1 = true ->
   exists u, tgts (addTarget nm hst itvl r).2 !! N_TGT r = Some u /\
             consecOk u = 0 /\ consecFail u = 0).
Proof.
  cbv zeta. destruct (run_inv deserializeJson es) as (Hlen & Hn & Hall).
  split; [|split].
  - eapply Forall_impl; [exact Hall|]. intros u [_ Hu]. exact Hu.
  - apply checkOne_exclusive.
  - unfold addTarget.
    destruct (Nat.leb_spec MAX_TGT (N_TGT (reg (run deserializeJson es))))
      as [Hfull|Hroom]; cbn -[strncpy]; [discriminate|].
    intros _. eexists. split.
    + apply list_lookup_insert_eq. lia.
    + split; reflexivity.
Qed.

(** C5.  In any state the sketch can reach the registry holds at most
    [MAX_TGT] = 12 targets, and [addTarget] on a registry that holds 12
    returns [false] and returns the registry as it was. *)
Theorem registry_capacity
    (es : list LoopEnv) (nm hst : string) (itvl : Z) (tg : list Target) :
  (N_TGT (reg (run deserializeJson es)) <= MAX_TGT)%nat /\
  MAX_TGT = 12%nat /\
  addTarget nm hst itvl (mkRegistry tg MAX_TGT) = (false, mkRegistry tg MAX_TGT).
Proof.
  destruct (run_inv deserializeJson es) as (_ & Hn & _).
  split; [exact Hn|]. split; reflexivity.
Qed.

End Reachable.

(** ** Alarm *)

Lemma u32_elapsed (start x : Z) :
  0 <= x < 4294967296 -> u32 (u32 (start + x) - start) = x.
Proof.
  intros Hx. unfold u32. rewrite Zminus_mod_idemp_l.
  replace (start + x - start) with x by lia.
  apply Z.mod_small. exact Hx.
Qed.

(** A tick of an active alarm before the time limit, with no button
    pressed, leaves it active with the same start time. *)
Lemma alarmTick_running (now : Z) (a : Alarm) :
  alarmActive a = true -> u32 (now - alarmStartMs a) < ALARM_MAX_MS ->
  alarmActive (alarmTick now false false a).1 = true /\
  alarmStartMs (alarmTick now false false a).1 = alarmStartMs a.
Proof.
  intros Hact Hlt. unfold alarmTick. rewrite Hact. cbn -[u32 Z.leb].
  destruct (Z.leb_spec ALARM_MAX_MS (u32 (now - alarmStartMs a))); [lia|].
  destruct (alarmNextMs a <=? now); [|split; [exact Hact | reflexivity]].
  destruct (alarmStep a =? 0); [split; reflexivity|].
  destruct (alarmStep a =? 1); split; reflexivity.
Qed.

(** A tick of an active alarm at or past the time limit stops it,
    whatever the buttons. *)
Lemma alarmTick_timeout (now : Z) (bA bB : bool) (a : Alarm) :
  alarmActive a = true -> ALARM_MAX_MS <= u32 (now - alarmStartMs a) ->
  alarmTick now bA bB a =
    (mkAlarm false (alarmStartMs a) (alarmNextMs a) (alarmStep a), [SpeakerStop]).
Proof.
  intros Hact Hge. unfold alarmTick. rewrite Hact. cbn -[u32 Z.leb].
  destruct (Z.leb_spec ALARM_MAX_MS (u32 (now - alarmStartMs a))); [reflexivity | lia].
Qed.

Lemma alarmTick_idle (now : Z) (bA bB : bool) (a : Alarm) :
  alarmActive a = false -> alarmTick now bA bB a = (a, []).
Proof. intros Hact. unfold alarmTick. rewrite Hact. reflexivity. Qed.

Lemma quietTicks_running (start : Z) (pre : list Z) (a : Alarm) :
  alarmActive a = true -> alarmStartMs a = start ->
  Forall (fun x => 0 <= x < ALARM_MAX_MS) pre ->
  alarmActive (quietTicks (map (fun x => u32 (start + x)) pre) a) = true /\
  alarmStartMs (quietTicks (map (fun x => u32 (start + x)) pre) a) = start.
Proof.
  intros Hact Hst Hpre. revert a Hact Hst.
  induction Hpre as [|x pre Hx Hpre IH]; intros a Hact Hst; cbn -[u32];
    [split; assumption|].
  destruct (alarmTick_running (u32 (start + x)) a Hact) as [H1 H2].
  { rewrite Hst, u32_elapsed; unfold ALARM_MAX_MS in *; lia. }
  apply IH; congruence.
Qed.

(** C7.  Let an alarm be active, let ticks follow at which less than
    60000 ms have elapsed since [alarmStartMs] and no button is pressed,
    and let the next tick come when 60000 ms or more have elapsed.  The
    alarm is still active before that tick; that tick stops it, whatever
    the buttons, and silences the speaker; and a tick of an alarm that
    is not active changes nothing and emits no sound. *)
Theorem alarm_auto_stop (a : Alarm) (pre : list Z) (d : Z) :
  alarmActive a = true ->
  Forall (fun x => 0 <= x < ALARM_MAX_MS) pre ->
  ALARM_MAX_MS <= d < 4294967296 ->
  let clock := fun x => u32 (alarmStartMs a + x) in
  let a1 := quietTicks (map clock pre) a in
  alarmActive a1 = true /\
  (forall bA bB : bool,
     alarmActive (alarmTick (clock d) bA bB a1).1 = false /\
     (alarmTick (clock d) bA bB a1).2 = [SpeakerStop]) /\
  (forall (now : Z) (bA bB : bool) (a2 : Alarm),
     alarmActive a2 = false -> alarmTick now bA bB a2 = (a2, [])).
Proof.
  intros Hact Hpre Hd. cbv zeta.
  destruct (quietTicks_running (alarmStartMs a) pre a Hact eq_refl Hpre)
    as [Hrun Hst].
  split; [exact Hrun|]. split.
  - intros bA bB. rewrite alarmTick_timeout; [split; reflexivity | exact Hrun |].
    rewrite Hst, u32_elapsed; unfold ALARM_MAX_MS in *; lia.
  - intros now bA bB a2. apply alarmTick_idle.
Qed.

(** C10.  A check that moves a target to DOWN leaves the alarm armed
    afresh whatever it was before, active or not: active, started at
    the current time, next event at 0 and step 0.  The next quiet tick
    within the time limit therefore sounds the first beep of a burst,
    and the time limit is counted from that current time. *)
Theorem down_transition_rearms_alarm (e : CheckEnv) (t : Target) (a : Alarm) :
  isDown t = false -> isDown (checkOne e t a).1.1 = true ->
  let a' := (checkOne e t a).1.2 in
  a' = mkAlarm true (millisBeep e) 0 0 /\
  beepDown (millisBeep e) a = (a', []) /\
  (forall now : Z, 0 <= now -> u32 (now - millisBeep e) < ALARM_MAX_MS ->
     alarmTick now false false a' =
       (mkAlarm true (millisBeep e) (u32 (now + 300)) 1,
        [SetVolume 255; Tone 650 180])) /\
  (forall (now : Z) (bA bB : bool), ALARM_MAX_MS <= u32 (now - millisBeep e) ->
     alarmTick now bA bB a' = (mkAlarm false (millisBeep e) 0 0, [SpeakerStop])).
Proof.
  intros Hup Hdown. cbv zeta.
  assert (Ha : (checkOne e t a).1.2 = mkAlarm true (millisBeep e) 0 0).
  { destruct (checkOne_cases e) as [H | (avg & Hw & Hp)].
    - rewrite (checkOne_failure e t a H) in *.
      destruct (negb (isDown t) && (FAIL_TH <=? u8 (consecFail t + 1)));
        [reflexivity|].
      cbn in Hdown. congruence.
    - rewrite (checkOne_success e t a avg Hw Hp) in Hdown.
      rewrite Hup in Hdown. cbn in Hdown. congruence. }
  rewrite Ha. split; [reflexivity|]. split; [reflexivity|]. split.
  - intros now Hnow Hlt. unfold alarmTick. cbn -[u32 Z.leb].
    destruct (Z.leb_spec ALARM_MAX_MS (u32 (now - millisBeep e))); [lia|].
    destruct (Z.leb_spec 0 now); [reflexivity | lia].
  - intros now bA bB Hge. apply alarmTick_timeout; [reflexivity | exact Hge].
Qed.

(** ** Commands *)

(** [findByName] returns the first index, below [N_TGT], whose name is
    the key. *)
Lemma findFrom_first (tg : list Target) (key : string) (n i idx : nat) :
  findFrom tg key i n = Some idx ->
  (i <= idx < i + n)%nat /\ name (tg !!! idx) = key /\
  (forall j : nat, (i <= j < idx)%nat -> name (tg !!! j) <> key).
Proof.
  revert i. induction n as [|n IH]; intros i; cbn; [discriminate|].
  destruct (String.eqb_spec (name (tg !!! i)) key) as [Heq|Hne].
  - intros [= <-]. repeat split; [lia | lia | exact Heq | intros j Hj; lia].
  - intros H. destruct (IH (S i) H) as (Hr & Hnm & Hfirst).
    repeat split; [lia | lia | exact Hnm |].
    intros j Hj. destruct (Nat.eq_dec j i) as [->|Hji]; [exact Hne|].
    apply Hfirst. lia.
Qed.

Section Commands.

Variable deserializeJson : string -> option json.

(** What [handleCommandUDP] does with a datagram that holds a [set]
    command. *)
Lemma handleCommandUDP_set (data : string) (doc : json) (r : Registry) :
  deserializeJson (substring 0 511 data) = Some doc ->
  member doc "cmd" = Some (JString "set") ->
  handleCommandUDP deserializeJson (Some data) r =
    if (String.length (substring 0 511 data) =? 0)%nat then r
    else if nonEmpty (orString (member doc "name") "") &&
            (0 <? u32 (orInt (member doc "itvl") 0))
         then (setIntervalByName (orString (member doc "name") "")
                 (u32 (orInt (member doc "itvl") 0)) r).2
         else r.
Proof.
  intros Hdoc Hcmd. unfold handleCommandUDP.
  set (buf := substring 0 511 data) in *.
  destruct (String.length buf =? 0)%nat; [reflexivity|].
  rewrite Hdoc, Hcmd. reflexivity.
Qed.

(** C6, as amended.  A [set] command whose [itvl] member is absent or
    zero (the integer 0 or a floating-point zero) leaves the registry
    exactly as it was.  A [set] command with a non-empty name and an
    integer [itvl] with 0 < itvl <= 2147483647 leaves the registry as it
    was when no registered target bears the name; otherwise it replaces
    the interval of the first registered target bearing that name by
    [itvl] and changes nothing else: no other field of that target, no
    other target, and not the number of targets. *)
Theorem set_command (data : string) (doc : json) (r : Registry) :
  deserializeJson (substring 0 511 data) = Some doc ->
  member doc "cmd" = Some (JString "set") ->
  let r' := handleCommandUDP deserializeJson (Some data) r in
  (member doc "itvl" = None \/ member doc "itvl" = Some (JInt 0) \/
   (exists s : bool, member doc "itvl" = Some (JFloat (S754_zero s))) -> r' = r) /\
  (forall (nm : string) (z : Z),
     data <> "" ->
     member doc "name" = Some (JString nm) -> nm <> "" ->
     member doc "itvl" = Some (JInt z) -> 0 < z <= 2147483647 ->
     match findByName nm r with
     | None => r' = r
     | Some idx =>
         (idx < N_TGT r)%nat /\ name (tgts r !!! idx) = nm /\
         (forall j : nat, (j < idx)%nat -> name (tgts r !!! j) <> nm) /\
         r' = mkRegistry (<[idx := set_intervalMs z (tgts r !!! idx)]> (tgts r))
                         (N_TGT r) /\
         (forall j : nat, j <> idx -> tgts r' !!! j = tgts r !!! j) /\
         ((idx < length (tgts r))%nat ->
          tgts r' !!! idx = set_intervalMs z (tgts r !!! idx))
     end).
Proof.
  intros Hdoc Hcmd. cbv zeta.
  rewrite (handleCommandUDP_set data doc r Hdoc Hcmd).
  split.
  - intros Hz.
    destruct (String.length (substring 0 511 data) =? 0)%nat; [reflexivity|].
    assert (H0 : orInt (member doc "itvl") 0 = 0)
      by (destruct Hz as [-> | [-> | [f ->]]]; reflexivity).
    rewrite H0. cbn. rewrite andb_false_r. reflexivity.
  - intros nm z Hdata Hnm Hne Hitvl [Hpos Hfit].
    rewrite Hnm, Hitvl. cbn [orString orInt].
    assert (Hlen : (String.length (substring 0 511 data) =? 0)%nat = false).
    { destruct data as [|c data']; [contradiction | reflexivity]. }
    assert (Hnon : nonEmpty nm = true).
    { unfold nonEmpty. destruct (String.eqb_spec nm ""); [contradiction | reflexivity]. }
    assert (Hlo : (-2147483648 <=? z) = true) by (apply Z.leb_le; lia).
    assert (Hhi : (z <=? 2147483647) = true) by (apply Z.leb_le; lia).
    assert (Hu : u32 z = z) by (unfold u32; apply Z.mod_small; lia).
    assert (Hp : (0 <? z) = true) by (apply Z.ltb_lt; exact Hpos).
    rewrite Hlen, Hnon, Hlo, Hhi. cbn [andb]. rewrite Hu, Hp.
    unfold setIntervalByName.
    destruct (findByName nm r) as [idx|] eqn:Hfind; cbn [snd]; [|reflexivity].
    unfold findByName in Hfind.
    destruct (findFrom_first _ _ _ _ _ Hfind) as (Hr & Hname & Hfirst).
    split; [lia|]. split; [exact Hname|].
    split; [intros j Hj; apply Hfirst; lia|].
    split; [reflexivity|]. cbn [tgts].
    split.
    + intros j Hj. apply list_lookup_total_insert_ne. congruence.
    + intros Hin. apply list_lookup_total_insert_eq. exact Hin.
Qed.

End Commands.

(** ** Telemetry round trip *)

Lemma substring_all (s : string) (n : nat) :
  (String.length s <= n)%nat -> substring 0 n s = s.
Proof.
  revert n. induction s as [|c s IH]; intros n Hn.
  - destruct n; reflexivity.
  - destruct n as [|n]; cbn in Hn; [lia|].
    cbn. rewrite IH; [reflexivity | lia].
Qed.

(** A reference whose object bears a name designates an object of the
    heap. *)
Lemma named_in_heap (hp : list Viewer.Item) (r : nat) (nm : string) :
  Viewer.name (hp !!! r) = Some nm -> (r < length hp)%nat.
Proof.
  intros Hnm. destruct (Nat.lt_ge_cases r (length hp)) as [Hlt|Hge]; [exact Hlt|].
  rewrite list_lookup_total_alt, (lookup_ge_None_2 hp r Hge) in Hnm.
  discriminate.
Qed.

(** Each key of the map built from the displayed list is the name of
    the object it leads to. *)
Lemma buildMap_names (hp : list Viewer.Item) (its : list nat)
    (k : option string) (r : nat) :
  Viewer.buildMap hp its !! k = Some r -> Viewer.name (hp !!! r) = k.
Proof.
  unfold Viewer.buildMap.
  assert (Hgen : forall (m : gmap (option string) nat),
             (forall k r, m !! k = Some r -> Viewer.name (hp !!! r) = k) ->
             forall k r,
               fold_left (fun m r => <[Viewer.name (hp !!! r) := r]> m) its m !! k
               = Some r ->
               Viewer.name (hp !!! r) = k).
  { induction its as [|r0 its IH]; intros m Hm k0 r1; cbn; [apply Hm|].
    apply IH. intros k2 r2. rewrite lookup_insert.
    case_decide as Hk; [intros [= <-]; exact Hk | apply Hm]. }
  apply Hgen. intros k0 r0. rewrite lookup_empty. discriminate.
Qed.

(** [sameJson] on arrays and on objects, member by member. *)
Lemma sameJson_array (l l' : list json) :
  sameJson (JArray l) (JArray l') -> Forall2 sameJson l l'.
Proof.
  revert l'. induction l as [|x l IH]; intros [|y l'] H;
    try (exfalso; exact H); [constructor|].
  destruct H as [Hx Hl]. constructor; [exact Hx | apply IH; exact Hl].
Qed.

Lemma sameJson_object (m m' : list (string * json)) :
  sameJson (JObject m) (JObject m') ->
  Forall2 (fun p q : string * json => p.1 = q.1 /\ sameJson p.2 q.2) m m'.
Proof.
  revert m'. induction m as [|[k v] m IH]; intros [|[k' v'] m'] H;
    try (exfalso; exact H); [constructor|].
  destruct H as (Hk & Hv & Hm).
  constructor; [split; [exact Hk | exact Hv] | apply IH; exact Hm].
Qed.

Section Reconciliation.

Variable serializeJson : json -> string.
Variable parseJSONObject : string -> option json.
Variable parseInt : string -> option Z.
Variable parseLong : string -> option Z.
Variable parseDouble : string -> option F64.double.

(** Reading back the object written for a target gives its mirror. *)
Lemma readItem_itemJson (t : Target) :
  Viewer.readItem parseInt parseDouble (itemJson t) = Some (itemOf t).
Proof.
  unfold Viewer.readItem, itemJson, itemOf. cbn.
  destruct (isDown t); reflexivity.
Qed.

(** The loop of the reconciler over the objects written for targets
    with distinct names: every reference already in [next] keeps its
    object, and the references added designate the mirrors of the
    targets, in order. *)
Lemma mergeItems_distinct (ts : list Target) (mp : gmap (option string) nat)
    (hp0 hp : list Viewer.Item) (next : list nat) :
  (forall k r, mp !! k = Some r -> Viewer.name (hp0 !!! r) = k) ->
  (length hp0 <= length hp)%nat ->
  NoDup (map name ts) ->
  (forall r, In r next ->
     (r < length hp)%nat /\
     forall t, In t ts -> mp !! Some (name t) <> Some r) ->
  exists (hp' : list Viewer.Item) (new : list nat),
    Viewer.mergeItems parseInt parseDouble (map itemJson ts) mp hp next
      = (hp', Some (next ++ new)) /\
    map (fun r => hp' !!! r) (next ++ new)
      = map (fun r => hp !!! r) next ++ map itemOf ts.
Proof.
  intros Hmp. revert hp next.
  induction ts as [|t ts IH]; intros hp next Hlen Hnd Hnext.
  - exists hp, []. cbn. rewrite !app_nil_r. split; reflexivity.
  - cbn [map Viewer.mergeItems]. rewrite readItem_itemJson.
    cbn [map] in Hnd. apply NoDup_cons in Hnd. destruct Hnd as [Hfresh Hnd].
    rewrite list_elem_of_In in Hfresh.
    change (Viewer.name (itemOf t)) with (Some (name t)).
    destruct (mp !! Some (name t)) as [r0|] eqn:Hr0.
    + (* the object already displayed under this name is reused *)
      pose proof (Hmp _ _ Hr0) as Hname.
      pose proof (named_in_heap _ _ _ Hname) as Hr0lt.
      destruct (IH (<[r0 := itemOf t]> hp) (next ++ [r0])) as (hp' & new & Hrun & Hmap).
      * rewrite length_insert. exact Hlen.
      * exact Hnd.
      * intros r Hr. rewrite length_insert. apply in_app_iff in Hr.
        destruct Hr as [Hr | [<- | []]].
        -- destruct (Hnext r Hr) as [Hlt Hno]. split; [exact Hlt|].
           intros t' Ht'. apply Hno. right. exact Ht'.
        -- split; [lia|]. intros t' Ht' Heq. apply Hfresh.
           pose proof (Hmp _ _ Heq) as Hname'. rewrite Hname in Hname'.
           injection Hname' as ->. apply in_map. exact Ht'.
      * exists hp', (r0 :: new). rewrite <- app_assoc in Hrun, Hmap. cbn in Hrun, Hmap.
        split; [exact Hrun|]. rewrite Hmap, map_app. cbn.
        rewrite list_lookup_total_insert_eq by lia.
        rewrite <- app_assoc. cbn. f_equal.
        apply map_ext_in. intros r Hr.
        apply list_lookup_total_insert_ne. intros <-.
        destruct (Hnext r0 Hr) as [_ Hno]. apply (Hno t); [left; reflexivity | exact Hr0].
    + (* a new object is allocated at the end of the heap *)
      assert (Hins : <[length hp := itemOf t]> (hp ++ [Viewer.newItem])
                     = hp ++ [itemOf t]).
      { rewrite insert_app_r_alt by lia. rewrite Nat.sub_diag. reflexivity. }
      rewrite Hins.
      destruct (IH (hp ++ [itemOf t]) (next ++ [length hp])) as (hp' & new & Hrun & Hmap).
      * rewrite length_app. cbn. lia.
      * exact Hnd.
      * intros r Hr. rewrite length_app. cbn. apply in_app_iff in Hr.
        destruct Hr as [Hr | [<- | []]].
        -- destruct (Hnext r Hr) as [Hlt Hno]. split; [lia|].
           intros t' Ht'. apply Hno. right. exact Ht'.
        -- split; [lia|]. intros t' Ht' Heq.
           pose proof (named_in_heap _ _ _ (Hmp _ _ Heq)). lia.
      * exists hp', (length hp :: new). rewrite <- app_assoc in Hrun, Hmap.
        cbn in Hrun, Hmap.
        split; [exact Hrun|]. rewrite Hmap, map_app. cbn.
        rewrite list_lookup_total_middle by reflexivity.
        rewrite <- app_assoc. cbn. f_equal.
        apply map_ext_in. intros r Hr.
        apply lookup_total_app_l. apply (Hnext r Hr).
Qed.

(** Reading back what was written for a target gives its mirror, also
    when the rtt comes back as an integer. *)
Lemma readItem_same (t : Target) (x : json) :
  sameJson (itemJson t) x ->
  Viewer.readItem parseInt parseDouble x = Some (itemOf t).
Proof.
  intros H. unfold itemJson in H.
  destruct x as [| | | | | |m]; try (exfalso; exact H).
  apply sameJson_object in H.
  apply Forall2_cons_inv_l in H as ([k1 v1] & m1 & [Hk1 Hv1] & H & ->).
  apply Forall2_cons_inv_l in H as ([k2 v2] & m2 & [Hk2 Hv2] & H & ->).
  apply Forall2_cons_inv_l in H as ([k3 v3] & m3 & [Hk3 Hv3] & H & ->).
  apply Forall2_cons_inv_l in H as ([k4 v4] & m4 & [Hk4 Hv4] & H & ->).
  apply Forall2_nil_inv_l in H as ->.
  cbn [fst snd] in *. subst k1 k2 k3 k4.
  destruct v1; try (exfalso; exact Hv1).
  destruct v2; try (exfalso; exact Hv2).
  destruct v3; try (exfalso; exact Hv3).
  cbn in Hv1, Hv2, Hv3. subst.
  unfold Viewer.readItem, itemOf.
  destruct v4; try (exfalso; exact Hv4); cbn in Hv4; cbn; rewrite <- Hv4;
    destruct (isDown t); reflexivity.
Qed.

(** The loop of the reconciler runs on a reading of the written array
    as on the written array. *)
Lemma mergeItems_same (ts : list Target) (arr : list json)
    (mp : gmap (option string) nat) (hp : list Viewer.Item) (next : list nat) :
  Forall2 sameJson (map itemJson ts) arr ->
  Viewer.mergeItems parseInt parseDouble arr mp hp next
    = Viewer.mergeItems parseInt parseDouble (map itemJson ts) mp hp next.
Proof.
  revert arr hp next.
  induction ts as [|t ts IH]; intros arr hp next H; cbn [map] in H.
  - apply Forall2_nil_inv_l in H as ->. reflexivity.
  - apply Forall2_cons_inv_l in H as (x & arr' & Hx & H & ->).
    cbn [map Viewer.mergeItems].
    rewrite (readItem_same t x Hx), readItem_itemJson.
    destruct (mp !! Viewer.name (itemOf t)); apply IH; exact H.
Qed.

(** C8, as amended.  Let the registry hold targets with pairwise
    distinct names, let its snapshot fit the single-datagram bound of
    1400 bytes, and let the viewer's decoding and parsing of the text of
    that datagram return the value the probe wrote: the same members,
    strings and integers, each rtt as the same number, be it read as a
    floating-point number or as an integer.  Then the probe sends one
    datagram, and the viewer, whatever it displayed before, displays
    after it exactly [N_TGT] entries, the i-th with the name, host, down
    flag and rtt of the i-th target. *)
Theorem telemetry_roundtrip (e : TelemEnv) (r : Registry) (now : Z)
    (v : Viewer.View) (jo : json) :
  telemWifi e = true -> mallocOk e = true ->
  (measureJson serializeJson (telemetryDoc (telemMillis e) r) <= 1400)%nat ->
  parseJSONObject (serializeJson (telemetryDoc (telemMillis e) r)) = Some jo ->
  sameJson (telemetryDoc (telemMillis e) r) jo ->
  NoDup (map (fun i => name (tgts r !!! i)) (seq 0 (N_TGT r))) ->
  exists p : Packet,
    sendTelemetryUDP serializeJson e r = [p] /\
    let v' := Viewer.readUdpNonBlocking parseJSONObject parseInt parseLong
                parseDouble (Some (payload p)) now v in
    Viewer.display v' = map (fun i => itemOf (tgts r !!! i)) (seq 0 (N_TGT r)) /\
    length (Viewer.display v') = N_TGT r.
Proof.
  intros Hwifi Hmalloc Hfit Hparse Hsame Hnd.
  set (doc := telemetryDoc (telemMillis e) r) in *.
  assert (Hshow : forall v' : Viewer.View,
             Viewer.display v' = map (fun i => itemOf (tgts r !!! i)) (seq 0 (N_TGT r)) ->
             Viewer.display v' = map (fun i => itemOf (tgts r !!! i)) (seq 0 (N_TGT r)) /\
             length (Viewer.display v') = N_TGT r).
  { intros v' Hv'. split; [exact Hv'|]. rewrite Hv', length_map, length_seq. reflexivity. }
  unfold sendTelemetryUDP. rewrite Hwifi, Hmalloc. cbn [negb]. fold doc.
  assert (Hleb : (measureJson serializeJson doc <=? 1400)%nat = true)
    by (apply Nat.leb_le; exact Hfit).
  rewrite Hleb. eexists. split; [reflexivity|]. cbn [payload]. cbv zeta.
  apply Hshow. unfold measureJson in *.
  rewrite (substring_all (serializeJson doc)) by lia.
  unfold Viewer.readUdpNonBlocking.
  rewrite (substring_all (serializeJson doc) 2048) by lia.
  rewrite Hparse. unfold doc, telemetryDoc in Hsame.
  destruct jo as [| | | | | |m]; try (exfalso; exact Hsame).
  apply sameJson_object in Hsame.
  apply Forall2_cons_inv_l in Hsame as ([k1 v1] & m1 & [Hk1 Hv1] & Hsame & ->).
  apply Forall2_cons_inv_l in Hsame as ([k2 v2] & m2 & [Hk2 Hv2] & Hsame & ->).
  apply Forall2_nil_inv_l in Hsame as ->.
  cbn [fst snd] in *. subst k1 k2.
  destruct v2 as [| | | | |arr|]; try (exfalso; exact Hv2).
  apply sameJson_array in Hv2.
  change (Viewer.getJSONArray _ "items") with (Some (Some arr)). cbv beta iota.
  rewrite <- (map_map (fun i => tgts r !!! i) itemJson) in Hv2.
  rewrite (mergeItems_same _ _ _ _ _ Hv2).
  rewrite <- (map_map (fun i => tgts r !!! i) name) in Hnd.
  destruct (mergeItems_distinct (map (fun i => tgts r !!! i) (seq 0 (N_TGT r)))
              (Viewer.buildMap (Viewer.heap v) (Viewer.items v))
              (Viewer.heap v) (Viewer.heap v) [])
    as (hp' & new & Hrun & Hmap).
  - intros k r0. apply buildMap_names.
  - lia.
  - exact Hnd.
  - intros r0 [].
  - rewrite Hrun. cbn [app] in *. unfold Viewer.display. cbn [Viewer.heap Viewer.items].
    rewrite Hmap, map_map. reflexivity.
Qed.

End Reconciliation.

(** ** Malformed telemetry *)

Section Discard.

Variable parseJSONObject : string -> option json.
Variable parseInt : string -> option Z.
Variable parseLong : string -> option Z.
Variable parseDouble : string -> option F64.double.

(** Without a datagram, or with one that Processing cannot parse into
    an object, the viewer is left exactly as it was. *)
Lemma readUdp_unparsable (rx : option string) (now : Z) (v : Viewer.View) :
  (forall data : string, rx = Some data ->
     forall m, parseJSONObject (substring 0 2048 data) <> Some (JObject m)) ->
  Viewer.readUdpNonBlocking parseJSONObject parseInt parseLong parseDouble rx now v = v.
Proof.
  intros Hbad. unfold Viewer.readUdpNonBlocking.
  destruct rx as [data|]; [|reflexivity].
  specialize (Hbad data eq_refl).
  destruct (parseJSONObject (substring 0 2048 data)) as [[| | | | | |m]|];
    try reflexivity.
  exfalso. apply (Hbad m). reflexivity.
Qed.

End Discard.

(** C9.  A datagram that parses as JSON but holds an element whose
    [down] member cannot be read is not discarded whole.  The viewer
    shows target [a] (host [h1], up) with time stamp 100; the datagram
    carries time stamp 200, a complete element for [a] (host [h2], down)
    and an element with a name only.  The read of the second element
    throws, the displayed list keeps its one reference, yet the entry
    now shows host [h2], DOWN and rtt -1, and the time stamp is 200. *)
Theorem unreadable_element_alters_display :
  let known := [snapshotA; brokenSnapshot] in
  let v1 := demoRead known (demoText snapshotA) emptyView in
  let v2 := demoRead known (demoText brokenSnapshot) v1 in
  demoParse known (demoText brokenSnapshot) = Some brokenSnapshot /\
  Viewer.readItem noNumber noNumber (JObject [("name", JString "b")]) = None /\
  Viewer.display v1 = [Viewer.mkItem (Some "a") (Some "h1") false (F32.of_Z 1)] /\
  Viewer.lastUpdateTs v1 = 100 /\
  Viewer.items v2 = Viewer.items v1 /\
  Viewer.display v2 = [Viewer.mkItem (Some "a") (Some "h2") true F32.neg1] /\
  Viewer.lastUpdateTs v2 = 200.
Proof. vm_compute. repeat split; reflexivity. Qed.

(** ** Worked examples *)

Lemma checkOne_offline_example :
  wifiConnected (offlineCheck 1000) = false /\
  consecFail (checkOne (offlineCheck 1000) (tgts (reg boot) !!! 0%nat) (alarm boot)).1.1 = 1.
Proof.
  split; [reflexivity|].
  pose proof (checkOne_offline (offlineCheck 1000) (tgts (reg boot) !!! 0%nat)
                (alarm boot) eq_refl) as H.
  cbv zeta in H. destruct H as (_ & _ & H & _). rewrite H. reflexivity.
Defined.

(** C1 as stated fails.  Three passes of the loop with the Wi-Fi link
    down, at 5000, 10000 and 15000 ms: the first check already changes
    [consecFail] of target 0, and after the third the target is DOWN
    with both time stamps at 15000 and the alarm is active. *)
Lemma offline_checks_take_target_down :
  let t0 := tgts (reg boot) !!! 0%nat in
  let s3 := run demoCommands [pass 5000 None (offlineCheck 5000);
                              pass 10000 None (offlineCheck 10000);
                              pass 15000 None (offlineCheck 15000)] in
  let t3 := tgts (reg s3) !!! 0%nat in
  wifiConnected (offlineCheck 5000) = false /\
  consecFail t0 = 0 /\
  consecFail (checkOne (offlineCheck 5000) t0 (alarm boot)).1.1 = 1 /\
  isDown t0 = false /\ lastChangeMs t0 = 0 /\ downStartMs t0 = 0 /\
  alarmActive (alarm boot) = false /\
  isDown t3 = true /\ consecFail t3 = 3 /\
  lastChangeMs t3 = 15000 /\ downStartMs t3 = 15000 /\
  alarmActive (alarm s3) = true.
Proof. vm_compute. repeat split; reflexivity. Qed.

Lemma checkOne_rtt_sentinel_example :
  successes (ping (mkCheckEnv true (fun _ => None) 0 0)) = 0 /\
  lastAvgRtt (checkOne (mkCheckEnv true (fun _ => None) 0 0)
                (tgts (reg boot) !!! 0%nat) (alarm boot)).1.1 = F32.neg1.
Proof.
  split; [reflexivity|].
  apply (checkOne_rtt_sentinel (mkCheckEnv true (fun _ => None) 0 0)).
  left. right. reflexivity.
Defined.

(** C2 as stated fails.  After the three passes above target 0 is
    DOWN.  In a fourth pass, at 20000 ms, one ping round out of four is
    answered in 10 ms: the target is still DOWN (one success of the two
    needed) and its [lastAvgRtt] is 10, not -1. *)
Lemma down_target_keeps_measured_rtt :
  let s4 := run demoCommands [pass 5000 None (offlineCheck 5000);
                              pass 10000 None (offlineCheck 10000);
                              pass 15000 None (offlineCheck 15000);
                              pass 20000 None (oneReply 10 20000)] in
  let t4 := tgts (reg s4) !!! 0%nat in
  isDown t4 = true /\ consecOk t4 = 1 /\
  lastAvgRtt t4 = F32.of_Z 10 /\ lastAvgRtt t4 <> F32.neg1.
Proof. vm_compute. repeat split; try reflexivity. discriminate. Qed.

Lemma counters_exclusive_example :
  exists u : Target,
    tgts (addTarget "gw" "10.0.0.1" 6000 (reg boot)).2 !! 3%nat = Some u /\
    consecOk u = 0 /\ consecFail u = 0.
Proof.
  exact (proj2 (proj2 (counters_exclusive demoCommands [] (offlineCheck 0) Target0
                         (alarm boot) "gw" "10.0.0.1" 6000)) eq_refl).
Defined.

Lemma set_command_example :
  handleCommandUDP demoCommands (Some (demoText setDns1Zero)) (reg boot) = reg boot /\
  handleCommandUDP demoCommands (Some (demoText setDns1)) (reg boot)
    = mkRegistry (<[1%nat := set_intervalMs 9000 (tgts (reg boot) !!! 1%nat)]>
                    (tgts (reg boot))) 3 /\
  tgts (handleCommandUDP demoCommands (Some (demoText setDns1)) (reg boot)) !!! 1%nat
    = set_intervalMs 9000 (tgts (reg boot) !!! 1%nat) /\
  tgts (handleCommandUDP demoCommands (Some (demoText setDns1)) (reg boot)) !!! 0%nat
    = tgts (reg boot) !!! 0%nat.
Proof.
  split.
  - apply (set_command demoCommands (demoText setDns1Zero) setDns1Zero (reg boot));
      [vm_compute; reflexivity | reflexivity | right; left; reflexivity].
  - assert (Hdoc : demoCommands (substring 0 511 (demoText setDns1)) = Some setDns1)
      by (vm_compute; reflexivity).
    assert (Hdata : demoText setDns1 <> "") by (vm_compute; discriminate).
    assert (Hne : "DNS1" <> "") by discriminate.
    assert (Hz : 0 < 9000 <= 2147483647) by lia.
    pose proof (proj2 (set_command demoCommands (demoText setDns1) setDns1 (reg boot)
                         Hdoc eq_refl) "DNS1" 9000 Hdata eq_refl Hne eq_refl Hz) as H.
    change (findByName "DNS1" (reg boot)) with (Some 1%nat) in H. cbv beta iota in H.
    destruct H as (_ & _ & _ & Heq & Hrest & Hset).
    split; [exact Heq|]. split; [apply Hset; vm_compute; lia | apply Hrest; lia].
Defined.

(** C6 as stated fails.  The viewer builds the text of
    [set DNS1 3000000000] from a [long]; the command has a non-empty
    name, names the registered target at index 1, and its [itvl] is
    positive and fits the [uint32_t] of the registry.  The probe reads
    the member with an [int] default, finds no [int] in it, takes 0 and
    rejects the command: the interval of [DNS1] stays 7000. *)
Lemma set_beyond_int_is_dropped :
  let text := Viewer.jsonCmdSet demoText "DNS1" 3000000000 in
  let parse := demoParse [setDns1Huge] in
  let r := reg boot in
  let r' := handleCommandUDP parse (Some text) r in
  parse (substring 0 511 text) = Some setDns1Huge /\
  member setDns1Huge "cmd" = Some (JString "set") /\
  member setDns1Huge "name" = Some (JString "DNS1") /\
  member setDns1Huge "itvl" = Some (JInt 3000000000) /\
  (0 <? 3000000000) = true /\ u32 3000000000 = 3000000000 /\
  findByName "DNS1" r = Some 1%nat /\
  intervalMs (tgts r !!! 1%nat) = 7000 /\
  intervalMs (tgts r' !!! 1%nat) = 7000 /\
  r' = r.
Proof. vm_compute. repeat split; reflexivity. Qed.

Lemma alarm_auto_stop_example :
  let a1 := quietTicks [5000; 5300; 64999] (mkAlarm true 5000 0 0) in
  alarmActive a1 = true /\
  alarmActive (alarmTick 65000 false false a1).1 = false /\
  (alarmTick 65000 false false a1).2 = [SpeakerStop].
Proof.
  pose proof (alarm_auto_stop (mkAlarm true 5000 0 0) [0; 300; 59999] 60000 eq_refl)
    as H.
  destruct H as (H1 & H2 & _).
  - repeat constructor; unfold ALARM_MAX_MS; lia.
  - unfold ALARM_MAX_MS; lia.
  - split; [exact H1 | exact (H2 false false)].
Defined.

Lemma down_transition_rearms_alarm_example :
  let t := set_consecFail 2 (tgts (reg boot) !!! 0%nat) in
  let old := mkAlarm true 100 400 1 in
  (checkOne (offlineCheck 50000) t old).1.2 = mkAlarm true 50000 0 0 /\
  alarmTick 50010 false false (checkOne (offlineCheck 50000) t old).1.2
    = (mkAlarm true 50000 50310 1, [SetVolume 255; Tone 650 180]).
Proof.
  cbv zeta.
  destruct (down_transition_rearms_alarm (offlineCheck 50000)
              (set_consecFail 2 (tgts (reg boot) !!! 0%nat))
              (mkAlarm true 100 400 1)) as (H1 & _ & H3 & _);
    [vm_compute; reflexivity | vm_compute; reflexivity |].
  split; [exact H1|].
  apply (H3 50010); [lia | vm_compute; reflexivity].
Defined.

Lemma telemetry_roundtrip_example :
  exists p : Packet,
    sendTelemetryUDP demoText telemAt1000 (reg boot) = [p] /\
    Viewer.display (demoRead [telemetryDoc 1000 (reg boot)] (payload p) emptyView)
      = [itemOf (tgts (reg boot) !!! 0%nat); itemOf (tgts (reg boot) !!! 1%nat);
         itemOf (tgts (reg boot) !!! 2%nat)] /\
    member (readBack (telemetryDoc 1000 (reg boot))) "items"
      <> member (telemetryDoc 1000 (reg boot)) "items" /\
    Viewer.display
      (Viewer.readUdpNonBlocking (wholeParse [telemetryDoc 1000 (reg boot)])
         noNumber noNumber noNumber (Some (payload p)) 0 emptyView)
      = [itemOf (tgts (reg boot) !!! 0%nat); itemOf (tgts (reg boot) !!! 1%nat);
         itemOf (tgts (reg boot) !!! 2%nat)].
Proof.
  assert (Hnd : NoDup (map (fun i => name (tgts (reg boot) !!! i))
                         (seq 0 (N_TGT (reg boot))))).
  { vm_compute. repeat constructor; rewrite list_elem_of_In; cbn; intuition discriminate. }
  assert (Hfit : (measureJson demoText (telemetryDoc (telemMillis telemAt1000) (reg boot))
                  <= 1400)%nat)
    by (apply Nat.leb_le; vm_compute; reflexivity).
  destruct (telemetry_roundtrip demoText (demoParse [telemetryDoc 1000 (reg boot)])
              noNumber noNumber noNumber telemAt1000 (reg boot) 0 emptyView
              (telemetryDoc 1000 (reg boot)) eq_refl eq_refl Hfit)
    as (p & Hsend & Hshow & _).
  - vm_compute. reflexivity.
  - vm_compute. repeat split; reflexivity.
  - exact Hnd.
  - destruct (telemetry_roundtrip demoText (wholeParse [telemetryDoc 1000 (reg boot)])
                noNumber noNumber noNumber telemAt1000 (reg boot) 0 emptyView
                (readBack (telemetryDoc 1000 (reg boot))) eq_refl eq_refl Hfit)
      as (q & Hsend' & Hshow' & _).
    + vm_compute. reflexivity.
    + vm_compute. repeat split; reflexivity.
    + exact Hnd.
    + exists p. split; [exact Hsend|]. split; [exact Hshow|].
      split; [vm_compute; discriminate|].
      rewrite Hsend in Hsend'. injection Hsend' as <-. exact Hshow'.
Defined.

(** C8 as stated fails.  A pass of the loop receives the command
    [add DNS1 9.9.9.9 6000], so that the registry holds two targets
    named [DNS1], with hosts 8.8.8.8 and 9.9.9.9.  Its snapshot fits
    one datagram and reaches the viewer unchanged.  On the first
    reception the display mirrors the registry; on the second the
    viewer finds, for both elements named [DNS1], the one object its
    map holds under that name, and the entry at index 1 shows host
    9.9.9.9 where the registry has 8.8.8.8. *)
Lemma duplicate_names_break_roundtrip :
  let r := reg (run demoCommands [pass 0 (Some (demoText addDns1)) (offlineCheck 0)]) in
  let doc := telemetryDoc 1000 r in
  let v1 := demoRead [doc] (demoText doc) emptyView in
  let v2 := demoRead [doc] (demoText doc) v1 in
  N_TGT r = 4%nat /\
  (measureJson demoText doc <=? 1400)%nat = true /\
  demoParse [doc] (demoText doc) = Some doc /\
  sendTelemetryUDP demoText telemAt1000 r
    = [mkPacket "192.168.11.255" 5005 (demoText doc)] /\
  Viewer.display v1 = map (fun i => itemOf (tgts r !!! i)) (seq 0 (N_TGT r)) /\
  host (tgts r !!! 1%nat) = "8.8.8.8" /\
  Viewer.host (Viewer.display v2 !!! 1%nat) = Some "9.9.9.9" /\
  Viewer.display v2 <> map (fun i => itemOf (tgts r !!! i)) (seq 0 (N_TGT r)).
Proof. vm_compute. repeat split; try reflexivity. discriminate. Qed.

(** * Further properties *)

(** ** Outcome of a check *)

Lemma checkFails_true (e : CheckEnv) :
  checkFails e = true -> wifiConnected e = false \/ successes (ping e) = 0.
Proof.
  unfold checkFails. intros H. apply orb_true_iff in H.
  destruct H as [H | H].
  - left. destruct (wifiConnected e); [discriminate | reflexivity].
  - right. apply Z.eqb_eq. exact H.
Qed.

Lemma checkFails_false (e : CheckEnv) :
  checkFails e = false ->
  exists avg : float, wifiConnected e = true /\ icmpAvgMs (ping e) = (true, avg).
Proof.
  unfold checkFails. intros H. apply orb_false_iff in H. destruct H as [Hw Hs].
  destruct (checkOne_cases e) as [[Hoff | Hzero] | Hok].
  - rewrite Hoff in Hw. discriminate.
  - apply Z.eqb_neq in Hs. contradiction.
  - exact Hok.
Qed.

(** The effect of a failed check on the fields the hysteresis reads. *)
Lemma failed_check_step (e : CheckEnv) (t : Target) (a : Alarm) :
  checkFails e = true ->
  consecOk (checkOne e t a).1.1 = 0 /\
  consecFail (checkOne e t a).1.1 = u8 (consecFail t + 1) /\
  isDown (checkOne e t a).1.1 = isDown t || (FAIL_TH <=? u8 (consecFail t + 1)) /\
  (checkOne e t a).1.2 =
    (if negb (isDown t) && (FAIL_TH <=? u8 (consecFail t + 1))
     then mkAlarm true (millisBeep e) 0 0 else a).
Proof.
  intros H. rewrite (checkOne_failure e t a (checkFails_true e H)).
  destruct (isDown t) eqn:Hd; cbn -[u8 Z.leb]; rewrite ?Hd;
    [repeat split; reflexivity|].
  destruct (FAIL_TH <=? u8 (consecFail t + 1)); cbn -[u8]; rewrite ?Hd;
    repeat split; reflexivity.
Qed.

(** The effect of a successful check on the same fields. *)
Lemma successful_check_step (e : CheckEnv) (t : Target) (a : Alarm) :
  checkFails e = false ->
  consecFail (checkOne e t a).1.1 = 0 /\
  consecOk (checkOne e t a).1.1 = u8 (consecOk t + 1) /\
  isDown (checkOne e t a).1.1 = isDown t && negb (REC_TH <=? u8 (consecOk t + 1)) /\
  (checkOne e t a).1.2 =
    (if isDown t && (REC_TH <=? u8 (consecOk t + 1))
     then mkAlarm false (alarmStartMs a) (alarmNextMs a) (alarmStep a) else a).
Proof.
  intros H. destruct (checkFails_false e H) as (avg & Hw & Hp).
  rewrite (checkOne_success e t a avg Hw Hp).
  destruct (isDown t) eqn:Hd; cbn -[u8 Z.leb]; rewrite ?Hd;
    [|repeat split; reflexivity].
  destruct (REC_TH <=? u8 (consecOk t + 1)); cbn -[u8]; rewrite ?Hd;
    repeat split; reflexivity.
Qed.

Lemma successes_zero_iff (png : nat -> option float) :
  successes png = 0 <-> forall i : nat, (i < 4)%nat -> png i = None.
Proof.
  unfold successes, PING_TRY. cbn [icmpRounds].
  split.
  - intros H i Hi.
    destruct (png 0%nat) eqn:H0, (png 1%nat) eqn:H1, (png 2%nat) eqn:H2,
             (png 3%nat) eqn:H3; cbn in H; try discriminate H.
    destruct i as [|[|[|[|i]]]]; first [assumption | lia].
  - intros H. rewrite (H 0%nat), (H 1%nat), (H 2%nat), (H 3%nat) by lia.
    reflexivity.
Qed.

Lemma successes_at_most_four (png : nat -> option float) :
  0 <= successes png <= 4.
Proof.
  unfold successes, PING_TRY. cbn [icmpRounds].
  destruct (png 0%nat), (png 1%nat), (png 2%nat), (png 3%nat); cbn; lia.
Qed.

(** One answered ping round out of the four makes a check a success,
    and only with the link up; a success adds one to [consecOk] and
    clears [consecFail], and a check with no answered round (or no link)
    adds one to [consecFail], not four, and clears [consecOk]. *)
Theorem check_succeeds_iff_one_round (e : CheckEnv) (t : Target) (a : Alarm) :
  (checkFails e = false <->
   wifiConnected e = true /\ exists i : nat, (i < 4)%nat /\ ping e i <> None) /\
  (checkFails e = false ->
   consecOk (checkOne e t a).1.1 = u8 (consecOk t + 1) /\
   consecFail (checkOne e t a).1.1 = 0) /\
  (checkFails e = true ->
   consecFail (checkOne e t a).1.1 = u8 (consecFail t + 1) /\
   consecOk (checkOne e t a).1.1 = 0).
Proof.
  split; [|split].
  - unfold checkFails. rewrite orb_false_iff, negb_false_iff, Z.eqb_neq.
    rewrite successes_zero_iff. split.
    + intros [Hw Hs]. split; [exact Hw|].
      destruct (ping e 0%nat) eqn:H0; [exists 0%nat; split; [lia | congruence]|].
      destruct (ping e 1%nat) eqn:H1; [exists 1%nat; split; [lia | congruence]|].
      destruct (ping e 2%nat) eqn:H2; [exists 2%nat; split; [lia | congruence]|].
      destruct (ping e 3%nat) eqn:H3; [exists 3%nat; split; [lia | congruence]|].
      exfalso. apply Hs. intros i Hi.
      destruct i as [|[|[|[|i]]]]; first [assumption | lia].
    + intros [Hw (i & Hi & Hne)]. split; [exact Hw|].
      intros Hall. apply Hne, Hall, Hi.
  - intros H. destruct (successful_check_step e t a H) as (H1 & H2 & _).
    split; assumption.
  - intros H. destruct (failed_check_step e t a H) as (H1 & H2 & _).
    split; assumption.
Qed.

Lemma check_succeeds_iff_one_round_example :
  checkFails (oneReply 10 0) = false /\
  consecOk (checkOne (oneReply 10 0) Target0 (mkAlarm false 0 0 0)).1.1 = 1.
Proof.
  split; [reflexivity|].
  destruct (check_succeeds_iff_one_round (oneReply 10 0) Target0 (mkAlarm false 0 0 0))
    as (_ & H & _).
  destruct (H eq_refl) as [H1 _]. rewrite H1. reflexivity.
Defined.

(** A check that moves a target to UP stops the alarm, whatever the
    state of the other targets: the alarm is inactive afterwards, the
    speaker is stopped and the confirmation tone (1500 Hz, 160 ms, volume
    230) is played, [downStartMs] is cleared and [lastChangeMs] is the
    current time. *)
Theorem up_transition_stops_alarm (e : CheckEnv) (t : Target) (a : Alarm) :
  isDown t = true -> isDown (checkOne e t a).1.1 = false ->
  (checkOne e t a).1.2 = mkAlarm false (alarmStartMs a) (alarmNextMs a) (alarmStep a) /\
  (checkOne e t a).2 = [SpeakerStop; SetVolume 230; Tone 1500 160] /\
  downStartMs (checkOne e t a).1.1 = 0 /\
  lastChangeMs (checkOne e t a).1.1 = millisLog e /\
  (forall (now : Z) (bA bB : bool),
     (alarmTick now bA bB (checkOne e t a).1.2).2 = []).
Proof.
  intros Hdown Hup.
  destruct (checkOne_cases e) as [H | (avg & Hw & Hp)].
  - rewrite (checkOne_failure e t a H) in Hup. rewrite Hdown in Hup.
    cbn in Hup. congruence.
  - rewrite (checkOne_success e t a avg Hw Hp) in *. rewrite Hdown in *.
    cbn -[u8 Z.leb] in *.
    destruct (REC_TH <=? u8 (consecOk t + 1)); cbn in *; [|congruence].
    repeat split; reflexivity.
Qed.

Lemma up_transition_stops_alarm_example :
  let t := set_consecOk 1 (set_isDown true Target0) in
  (checkOne (oneReply 10 7000) t (mkAlarm true 100 400 1)).1.2 = mkAlarm false 100 400 1.
Proof.
  cbv zeta.
  destruct (up_transition_stops_alarm (oneReply 10 7000)
              (set_consecOk 1 (set_isDown true Target0)) (mkAlarm true 100 400 1))
    as (H & _); [reflexivity | vm_compute; reflexivity |].
  exact H.
Defined.

(** ** Runs of checks *)

Lemma u8_small (z : Z) : 0 <= z < 256 -> u8 z = z.
Proof. intros H. unfold u8. apply Z.mod_small. exact H. Qed.

(** Failed checks never bring a target up, nor touch the alarm of a
    target that is already down. *)
Lemma failed_checks_stay_down (es : list CheckEnv) (t : Target) (a : Alarm) :
  Forall (fun e => checkFails e = true) es -> isDown t = true ->
  isDown (checks es t a).1 = true /\ (checks es t a).2 = a.
Proof.
  intros Hes. revert t a.
  induction Hes as [|e es He Hes IH]; intros t a Hd; cbn [checks]; [split; auto|].
  destruct (failed_check_step e t a He) as (_ & _ & Hdown & Halarm).
  rewrite Hd in Hdown, Halarm. cbn in Hdown, Halarm.
  rewrite Halarm. apply IH. exact Hdown.
Qed.

Lemma successful_checks_stay_up (es : list CheckEnv) (t : Target) (a : Alarm) :
  Forall (fun e => checkFails e = false) es -> isDown t = false ->
  isDown (checks es t a).1 = false /\ (checks es t a).2 = a.
Proof.
  intros Hes. revert t a.
  induction Hes as [|e es He Hes IH]; intros t a Hd; cbn [checks]; [split; auto|].
  destruct (successful_check_step e t a He) as (_ & _ & Hdown & Halarm).
  rewrite Hd in Hdown, Halarm. cbn in Hdown, Halarm.
  rewrite Halarm. apply IH. exact Hdown.
Qed.

Lemma failed_checks_from (c : nat) (es : list CheckEnv) (t : Target) (a : Alarm) :
  Forall (fun e => checkFails e = true) es ->
  isDown t = false -> consecFail t = Z.of_nat c -> (c <= 2)%nat ->
  isDown (checks es t a).1 = (3 <=? c + length es)%nat /\
  ((3 <= c + length es)%nat -> alarmActive (checks es t a).2 = true) /\
  ((c + length es < 3)%nat -> (checks es t a).2 = a).
Proof.
  intros Hes. revert c t a.
  induction Hes as [|e es He Hes IH]; intros c t a Hup Hc Hle; cbn [checks length fst snd].
  - rewrite Nat.add_0_r. split; [|split]; [| lia | reflexivity].
    rewrite Hup. symmetry. apply Nat.leb_gt. lia.
  - destruct (failed_check_step e t a He) as (_ & Hfail & Hdown & Halarm).
    rewrite Hup, Hc in *. rewrite u8_small in * by lia. cbn [negb orb andb] in *.
    unfold FAIL_TH in *.
    destruct (Z.leb_spec 3 (Z.of_nat c + 1)) as [Hthree | Hless].
    + destruct (failed_checks_stay_down es _ (checkOne e t a).1.2 Hes Hdown)
        as [Hd Ha].
      rewrite Hd, Ha, Halarm.
      split; [symmetry; apply Nat.leb_le; lia|]. split; [reflexivity | lia].
    + destruct (IH (S c) _ (checkOne e t a).1.2 Hdown) as (I1 & I2 & I3);
        [rewrite Hfail; lia | lia |].
      rewrite Halarm in *.
      replace (c + S (length es))%nat with (S c + length es)%nat by lia.
      split; [exact I1|]. split; assumption.
Qed.

(** From a target that is up with no failure pending, a run of failed
    checks leaves it DOWN exactly when the run has three checks or more;
    the alarm is then active, and it is untouched by a shorter run. *)
Theorem three_failures_take_down (es : list CheckEnv) (t : Target) (a : Alarm) :
  Forall (fun e => checkFails e = true) es ->
  isDown t = false -> consecFail t = 0 ->
  isDown (checks es t a).1 = (3 <=? length es)%nat /\
  ((3 <= length es)%nat -> alarmActive (checks es t a).2 = true) /\
  ((length es < 3)%nat -> (checks es t a).2 = a).
Proof.
  intros Hes Hup Hc.
  exact (failed_checks_from 0 es t a Hes Hup Hc ltac:(lia)).
Qed.

Lemma three_failures_take_down_example :
  isDown (checks [offlineCheck 1; offlineCheck 2; offlineCheck 3; offlineCheck 4]
            Target0 (mkAlarm false 0 0 0)).1 = true.
Proof.
  destruct (three_failures_take_down
              [offlineCheck 1; offlineCheck 2; offlineCheck 3; offlineCheck 4]
              Target0 (mkAlarm false 0 0 0)) as (H & _).
  - repeat constructor.
  - reflexivity.
  - reflexivity.
  - rewrite H. reflexivity.
Defined.

Lemma successful_checks_from (c : nat) (es : list CheckEnv) (t : Target) (a : Alarm) :
  Forall (fun e => checkFails e = false) es ->
  isDown t = true -> consecOk t = Z.of_nat c -> (c <= 1)%nat ->
  isDown (checks es t a).1 = (c + length es <? 2)%nat /\
  ((2 <= c + length es)%nat -> alarmActive (checks es t a).2 = false) /\
  ((c + length es < 2)%nat -> (checks es t a).2 = a).
Proof.
  intros Hes. revert c t a.
  induction Hes as [|e es He Hes IH]; intros c t a Hdn Hc Hle; cbn [checks length fst snd].
  - rewrite Nat.add_0_r. split; [|split]; [| lia | reflexivity].
    rewrite Hdn. symmetry. apply Nat.ltb_lt. lia.
  - destruct (successful_check_step e t a He) as (_ & Hok & Hdown & Halarm).
    rewrite Hdn, Hc in *. rewrite u8_small in * by lia. cbn [andb] in *.
    unfold REC_TH in *.
    destruct (Z.leb_spec 2 (Z.of_nat c + 1)) as [Htwo | Hless]; cbn [negb] in *.
    + destruct (successful_checks_stay_up es _ (checkOne e t a).1.2 Hes Hdown)
        as [Hd Ha].
      rewrite Hd, Ha, Halarm.
      split; [symmetry; apply Nat.ltb_ge; lia|]. split; [reflexivity | lia].
    + destruct (IH (S c) _ (checkOne e t a).1.2 Hdown) as (I1 & I2 & I3);
        [rewrite Hok; lia | lia |].
      rewrite Halarm in *.
      replace (c + S (length es))%nat with (S c + length es)%nat by lia.
      split; [exact I1|]. split; assumption.
Qed.

(** From a target that is DOWN with no success pending, a run of
    successful checks leaves it UP exactly when the run has two checks
    or more; the alarm is then inactive, and it is untouched by a single
    success. *)
Theorem two_successes_bring_up (es : list CheckEnv) (t : Target) (a : Alarm) :
  Forall (fun e => checkFails e = false) es ->
  isDown t = true -> consecOk t = 0 ->
  isDown (checks es t a).1 = (length es <? 2)%nat /\
  ((2 <= length es)%nat -> alarmActive (checks es t a).2 = false) /\
  ((length es < 2)%nat -> (checks es t a).2 = a).
Proof.
  intros Hes Hdn Hc.
  exact (successful_checks_from 0 es t a Hes Hdn Hc ltac:(lia)).
Qed.

Lemma two_successes_bring_up_example :
  isDown (checks [oneReply 10 1; oneReply 12 2]
            (set_isDown true Target0) (mkAlarm true 0 0 0)).1 = false.
Proof.
  destruct (two_successes_bring_up [oneReply 10 1; oneReply 12 2]
              (set_isDown true Target0) (mkAlarm true 0 0 0)) as (H & _).
  - repeat constructor.
  - reflexivity.
  - reflexivity.
  - rewrite H. reflexivity.
Defined.

Lemma longestRun_ge (os : list bool) (cur : nat) : (cur <= longestRun cur os)%nat.
Proof.
  revert cur. induction os as [|o os IH]; intros cur; cbn; [lia|].
  destruct o; [specialize (IH (S cur)); lia | lia].
Qed.

Lemma flapping_from (es : list CheckEnv) (cur : nat) (t : Target) (a : Alarm) :
  isDown t = false -> consecFail t = Z.of_nat cur ->
  (longestRun cur (map checkFails es) < 3)%nat ->
  isDown (checks es t a).1 = false /\ (checks es t a).2 = a.
Proof.
  revert cur t a.
  induction es as [|e es IH]; intros cur t a Hup Hc Hrun; cbn [checks map longestRun] in *;
    [split; auto|].
  destruct (checkFails e) eqn:He.
  - pose proof (longestRun_ge (map checkFails es) (S cur)) as Hge.
    destruct (failed_check_step e t a He) as (_ & Hfail & Hdown & Halarm).
    rewrite Hup, Hc in *. rewrite u8_small in * by lia. unfold FAIL_TH in *.
    assert (Hlt : (3 <=? Z.of_nat cur + 1) = false) by (apply Z.leb_gt; lia).
    rewrite Hlt in *. cbn in Hdown, Halarm. rewrite Halarm.
    apply (IH (S cur)); [exact Hdown | rewrite Hfail; lia | exact Hrun].
  - destruct (successful_check_step e t a He) as (Hfail & _ & Hdown & Halarm).
    rewrite Hup in *. cbn in Hdown, Halarm. rewrite Halarm.
    apply (IH 0%nat); [exact Hdown | exact Hfail | lia].
Qed.

(** A target that is up with no failure pending stays up, and its
    checks leave the alarm as it was, through any run of checks that
    holds no three failures in a row. *)
Theorem flapping_never_alarms (es : list CheckEnv) (t : Target) (a : Alarm) :
  isDown t = false -> consecFail t = 0 ->
  (longestRun 0 (map checkFails es) < 3)%nat ->
  isDown (checks es t a).1 = false /\ (checks es t a).2 = a.
Proof. intros Hup Hc Hrun. exact (flapping_from es 0 t a Hup Hc Hrun). Qed.

Lemma flapping_never_alarms_example :
  isDown (checks [offlineCheck 1; offlineCheck 2; oneReply 10 3;
                  offlineCheck 4; offlineCheck 5; oneReply 10 6]
            Target0 (mkAlarm false 0 0 0)).1 = false.
Proof.
  apply (flapping_never_alarms
           [offlineCheck 1; offlineCheck 2; oneReply 10 3;
            offlineCheck 4; offlineCheck 5; oneReply 10 6]);
    [reflexivity | reflexivity | vm_compute; lia].
Defined.

(** ** Alarm pattern and acknowledgement *)

(** A quiet tick of an active alarm within the time limit: nothing
    before [alarmNextMs], a beep and the next step from then on. *)
Lemma alarmTick_wait (now : Z) (a : Alarm) :
  alarmActive a = true -> u32 (now - alarmStartMs a) < ALARM_MAX_MS ->
  now < alarmNextMs a ->
  alarmTick now false false a = (a, []).
Proof.
  intros Hact Hlim Hnext. unfold alarmTick. rewrite Hact. cbn -[u32 Z.leb].
  destruct (Z.leb_spec ALARM_MAX_MS (u32 (now - alarmStartMs a))); [lia|].
  destruct (Z.leb_spec (alarmNextMs a) now); [lia | reflexivity].
Qed.

Lemma alarmTick_beep (now : Z) (a : Alarm) :
  alarmActive a = true -> u32 (now - alarmStartMs a) < ALARM_MAX_MS ->
  alarmNextMs a <= now ->
  alarmTick now false false a =
    if alarmStep a =? 0 then
      (mkAlarm true (alarmStartMs a) (u32 (now + 300)) 1, [SetVolume 255; Tone 650 180])
    else if alarmStep a =? 1 then
      (mkAlarm true (alarmStartMs a) (u32 (now + 300)) 2, [SetVolume 255; Tone 650 180])
    else
      (mkAlarm true (alarmStartMs a) (u32 (now + 1000)) 0, [SetVolume 255; Tone 650 220]).
Proof.
  intros Hact Hlim Hnext. unfold alarmTick. rewrite Hact. cbn -[u32 Z.leb].
  destruct (Z.leb_spec ALARM_MAX_MS (u32 (now - alarmStartMs a))); [lia|].
  destruct (Z.leb_spec (alarmNextMs a) now); [reflexivity | lia].
Qed.

Lemma u32_small (z : Z) : 0 <= z < 4294967296 -> u32 z = z.
Proof. intros H. unfold u32. apply Z.mod_small. exact H. Qed.

(** The burst.  Let an active alarm be at step 0 and let three quiet
    ticks within the time limit come at [n1], [n2], [n3], the first at or
    after [alarmNextMs] and each of the others 300 ms or more after the
    one before.  They sound 650 Hz for 180, 180 and 220 ms at volume
    255, and leave the alarm at step 0 with the next event 1000 ms after
    [n3]; until then a quiet tick sounds nothing. *)
Theorem alarm_burst (a : Alarm) (n1 n2 n3 : Z) :
  alarmActive a = true -> alarmStep a = 0 ->
  alarmNextMs a <= n1 -> n1 + 300 <= n2 -> n2 + 300 <= n3 ->
  0 <= n1 -> n3 + 1000 < 4294967296 ->
  u32 (n1 - alarmStartMs a) < ALARM_MAX_MS ->
  u32 (n2 - alarmStartMs a) < ALARM_MAX_MS ->
  u32 (n3 - alarmStartMs a) < ALARM_MAX_MS ->
  let r1 := alarmTick n1 false false a in
  let r2 := alarmTick n2 false false r1.1 in
  let r3 := alarmTick n3 false false r2.1 in
  r1.2 = [SetVolume 255; Tone 650 180] /\
  r2.2 = [SetVolume 255; Tone 650 180] /\
  r3.2 = [SetVolume 255; Tone 650 220] /\
  r3.1 = mkAlarm true (alarmStartMs a) (n3 + 1000) 0 /\
  (forall m : Z, m < n3 + 1000 -> u32 (m - alarmStartMs a) < ALARM_MAX_MS ->
     alarmTick m false false r3.1 = (r3.1, [])).
Proof.
  intros Hact Hstep H1 H2 H3 H0 Hmax L1 L2 L3. cbv zeta.
  rewrite (alarmTick_beep n1 a Hact L1 H1). rewrite Hstep. cbn -[u32 alarmTick].
  rewrite (u32_small (n1 + 300)) by lia.
  rewrite (alarmTick_beep n2 (mkAlarm true (alarmStartMs a) (n1 + 300) 1))
    by (cbn; first [reflexivity | assumption | lia]).
  cbn -[u32 alarmTick]. rewrite (u32_small (n2 + 300)) by lia.
  rewrite (alarmTick_beep n3 (mkAlarm true (alarmStartMs a) (n2 + 300) 2))
    by (cbn; first [reflexivity | assumption | lia]).
  cbn -[u32 alarmTick]. rewrite (u32_small (n3 + 1000)) by lia.
  repeat split.
  intros m Hm Lm. apply alarmTick_wait; cbn; first [reflexivity | assumption].
Qed.

Lemma alarm_burst_example :
  (alarmTick 1600 false false
     (alarmTick 1300 false false
        (alarmTick 1000 false false (mkAlarm true 1000 0 0)).1).1).1
  = mkAlarm true 1000 2600 0.
Proof.
  refine (proj1 (proj2 (proj2 (proj2
            (alarm_burst (mkAlarm true 1000 0 0) 1000 1300 1600
               eq_refl eq_refl _ _ _ _ _ _ _ _)))));
    first [ cbn; lia | vm_compute; reflexivity ].
Defined.

(** What a check can do to the alarm: leave it, stop it, or arm it
    afresh. *)
Lemma checkOne_alarm_cases (e : CheckEnv) (t : Target) (a : Alarm) :
  (checkOne e t a).1.2 = a \/
  (checkOne e t a).1.2 = mkAlarm false (alarmStartMs a) (alarmNextMs a) (alarmStep a) \/
  (checkOne e t a).1.2 = mkAlarm true (millisBeep e) 0 0.
Proof.
  destruct (checkOne_cases e) as [H | (avg & Hw & Hp)].
  - rewrite (checkOne_failure e t a H).
    destruct (negb (isDown t) && (FAIL_TH <=? u8 (consecFail t + 1)));
      [right; right | left]; reflexivity.
  - rewrite (checkOne_success e t a avg Hw Hp).
    destruct (isDown t && (REC_TH <=? u8 (consecOk t + 1)));
      [right; left | left]; reflexivity.
Qed.

Lemma schedulerFrom_silentOrArmed (now : Z) (es : nat -> CheckEnv) (n i : nat) (s : State) :
  silentOrArmed (alarm s) -> silentOrArmed (alarm (schedulerFrom now es i n s).1).
Proof.
  revert i s. induction n as [|n IH]; intros i s Hs; cbn [schedulerFrom]; [exact Hs|].
  assert (H1 : silentOrArmed (alarm (scheduleOne now (es i) i s).1)).
  { unfold scheduleOne.
    destruct (intervalMs (tgts (reg s) !!! i) <=?
              u32 (now - lastCheckMs (tgts (reg s) !!! i))); [|exact Hs].
    pose proof (checkOne_alarm_cases (es i) (set_lastCheckMs now (tgts (reg s) !!! i))
                  (alarm s)) as Hc.
    destruct (checkOne (es i) (set_lastCheckMs now (tgts (reg s) !!! i)) (alarm s))
      as [[t1 a1] out]. cbn in *.
    destruct Hc as [-> | [-> | ->]];
      [exact Hs | left; reflexivity | right; eexists; reflexivity]. }
  destruct (scheduleOne now (es i) i s) as [s1 out1]. cbn in H1.
  specialize (IH (S i) s1 H1).
  destruct (schedulerFrom now es (S i) n s1) as [s2 out2]. exact IH.
Qed.

Section Acknowledge.

Variable deserializeJson : string -> option json.

(** The alarm after a pass, read off the stages of [loop]. *)
Lemma loop_alarm (e : LoopEnv) (s : State) :
  let a1 := (alarmTick (millisAlarm e) (btnA e) (btnB e) (alarm s)).1 in
  let a2 := (if btnA e then (if alarmActive a1 then stopAlarm a1 else (a1, []))
             else (a1, [])).1 in
  let a3 := (if btnB e then stopAlarm a2 else (a2, [])).1 in
  alarm (loop deserializeJson e s).1
  = alarm (scheduler (millisSched e) (checkEnv e)
             (mkState (handleCommandUDP deserializeJson (cmdPacket e) (reg s)) a3)).1.
Proof.
  cbv zeta. unfold loop.
  destruct (alarmTick (millisAlarm e) (btnA e) (btnB e) (alarm s)) as [a1 out1].
  cbn [fst].
  destruct (if btnA e then if alarmActive a1 then stopAlarm a1 else (a1, [])
            else (a1, [])) as [a2 out2].
  cbn [fst].
  destruct (if btnB e then stopAlarm a2 else (a2, [])) as [a3 out3].
  cbn [fst].
  destruct (scheduler (millisSched e) (checkEnv e)
              (mkState (handleCommandUDP deserializeJson (cmdPacket e) (reg s)) a3))
    as [s1 out4].
  reflexivity.
Qed.

(** Acknowledgement.  After a pass of [loop()] in which button A or
    button B was pressed the alarm is inactive, unless a check of that
    very pass took a target DOWN, in which case the alarm is freshly
    armed (next event 0, step 0) and has not beeped. *)
Theorem button_silences_alarm (e : LoopEnv) (s : State) :
  btnA e || btnB e = true ->
  let a' := alarm (loop deserializeJson e s).1 in
  alarmActive a' = false \/ exists now : Z, a' = mkAlarm true now 0 0.
Proof.
  intros Hbtn. cbv zeta. rewrite loop_alarm. cbv zeta.
  unfold scheduler. apply schedulerFrom_silentOrArmed. left. cbn [alarm].
  assert (H1 : alarmActive (alarmTick (millisAlarm e) (btnA e) (btnB e) (alarm s)).1
               = false).
  { unfold alarmTick. destruct (alarmActive (alarm s)) eqn:Hact; cbn -[u32 Z.leb];
      [|exact Hact].
    destruct (ALARM_MAX_MS <=? u32 (millisAlarm e - alarmStartMs (alarm s)));
      [reflexivity|].
    rewrite Hbtn. reflexivity. }
  rewrite H1.
  destruct (btnA e), (btnB e); cbn; first [reflexivity | exact H1].
Qed.

End Acknowledge.

Lemma button_silences_alarm_example :
  alarmActive
    (alarm (loop demoCommands (mkLoopEnv false true 2000 None 2000 (fun _ => offlineCheck 2000))
              (mkState (reg boot) (mkAlarm true 1000 1300 1))).1) = false.
Proof.
  destruct (button_silences_alarm demoCommands
              (mkLoopEnv false true 2000 None 2000 (fun _ => offlineCheck 2000))
              (mkState (reg boot) (mkAlarm true 1000 1300 1)) eq_refl) as [H | [now H]].
  - exact H.
  - vm_compute in H. discriminate H.
Defined.

(** ** Wi-Fi reconnection back-off *)

Lemma ensureWiFi_interval (c : bool) (now : Z) (w : WifiRetry) :
  wifiRetryInterval w = 0 \/ 2000 <= wifiRetryInterval w <= 60000 ->
  wifiRetryInterval (ensureWiFi c now w).1 = 0 \/
  2000 <= wifiRetryInterval (ensureWiFi c now w).1 <= 60000.
Proof.
  intros Hw. unfold ensureWiFi.
  destruct c; [left; reflexivity|].
  destruct (u32 (now - wifiLastAttemptMs w) <? wifiRetryInterval w); [exact Hw|].
  cbn. right.
  destruct (Z.eqb_spec (wifiRetryInterval w) 0) as [H0|H0]; [lia|].
  rewrite u32_small by lia. lia.
Qed.

(** Whatever the link does, the retry interval is 0 or lies between
    2 s and 60 s. *)
Theorem wifi_retry_interval_bounded (calls : list (bool * Z)) :
  let w := wifiCalls calls (mkWifiRetry 0 0) in
  wifiRetryInterval w = 0 \/ 2000 <= wifiRetryInterval w <= 60000.
Proof.
  cbv zeta.
  assert (Hgen : forall w : WifiRetry,
             wifiRetryInterval w = 0 \/ 2000 <= wifiRetryInterval w <= 60000 ->
             wifiRetryInterval (wifiCalls calls w) = 0 \/
             2000 <= wifiRetryInterval (wifiCalls calls w) <= 60000).
  { induction calls as [|[c now] calls IH]; intros w Hw; cbn [wifiCalls]; [exact Hw|].
    apply IH, ensureWiFi_interval, Hw. }
  apply Hgen. left. reflexivity.
Qed.

Lemma backoff_step (k : nat) :
  (if backoff k =? 0 then 2000 else Z.min (u32 (backoff k * 2)) 60000)
  = backoff (S k).
Proof.
  destruct k as [|k]; [reflexivity|].
  cbn [backoff].
  assert (Hpow : 1 <= 2 ^ Z.of_nat k) by (apply Z.pow_le_mono_r with (b := 0); lia).
  replace (2 ^ Z.of_nat (S k)) with (2 * 2 ^ Z.of_nat k)
    by (rewrite Nat2Z.inj_succ, Z.pow_succ_r; lia).
  destruct (Z.eqb_spec (Z.min (2000 * 2 ^ Z.of_nat k) 60000) 0) as [H0|H0]; [lia|].
  rewrite u32_small by lia. lia.
Qed.

Lemma wifi_backoff_from (calls : list (bool * Z)) (k : nat) (w : WifiRetry) :
  wifiRetryInterval w = backoff k -> allAttempt calls w ->
  wifiRetryInterval (wifiCalls calls w) = backoff (k + length calls).
Proof.
  revert k w.
  induction calls as [|[c now] calls IH]; intros k w Hw Hall;
    cbn [wifiCalls allAttempt length] in *.
  - rewrite Nat.add_0_r. exact Hw.
  - destruct Hall as [Hatt Hall].
    replace (k + S (length calls))%nat with (S k + length calls)%nat by lia.
    apply IH; [|exact Hall].
    unfold ensureWiFi in *. destruct c; [discriminate Hatt|].
    destruct (u32 (now - wifiLastAttemptMs w) <? wifiRetryInterval w);
      [discriminate Hatt|].
    cbn. rewrite Hw. apply backoff_step.
Qed.

(** Back-off.  Starting with no retry pending, after [k] calls in a row
    that each started a reconnection the retry interval is
    min(2000 * 2^(k-1), 60000) ms: 2, 4, 8, 16, 32 and then 60 s. *)
Theorem wifi_backoff_doubles (calls : list (bool * Z)) (w : WifiRetry) :
  wifiRetryInterval w = 0 -> allAttempt calls w ->
  wifiRetryInterval (wifiCalls calls w) = backoff (length calls).
Proof. intros Hw Hall. exact (wifi_backoff_from calls 0 w Hw Hall). Qed.

Lemma wifi_backoff_doubles_example :
  wifiRetryInterval
    (wifiCalls [(false, 100); (false, 2100); (false, 6100)] (mkWifiRetry 0 0)) = 8000.
Proof.
  rewrite (wifi_backoff_doubles [(false, 100); (false, 2100); (false, 6100)]
             (mkWifiRetry 0 0) eq_refl);
    [reflexivity | vm_compute; repeat split].
Defined.

(** While the link is up the retry interval is cleared, so that the
    first call after the link drops starts a reconnection at once and
    sets the interval to 2 s. *)
Theorem wifi_retry_immediate_after_link_up (now0 now : Z) (w : WifiRetry) :
  ensureWiFi false now (ensureWiFi true now0 w).1
  = (mkWifiRetry now 2000, true).
Proof.
  unfold ensureWiFi. cbn -[u32].
  assert (H : (u32 (now - wifiLastAttemptMs w) <? 0) = false).
  { apply Z.ltb_ge. unfold u32. apply Z.mod_pos_bound. lia. }
  rewrite H. reflexivity.
Qed.

(** ** Dashboard layout and colours *)

(** On a screen at least 3 pixels wide and at least as high as there
    are rows, the cells of two different targets do not overlap, and
    every cell is non-empty and lies within the screen. *)
Theorem dashboard_cells_disjoint (width height n i j : Z) :
  0 <= i < j -> j < n -> 3 <= width -> gridRows n <= height ->
  let ci := dashCell width height n i in
  let cj := dashCell width height n j in
  let w := ci.1.2 in
  let h := ci.2 in
  cj.1.2 = w /\ cj.2 = h /\ 0 < w /\ 0 < h /\
  0 <= ci.1.1.1 /\ ci.1.1.1 + w <= width /\ 0 <= ci.1.1.2 /\ ci.1.1.2 + h <= height /\
  0 <= cj.1.1.1 /\ cj.1.1.1 + w <= width /\ 0 <= cj.1.1.2 /\ cj.1.1.2 + h <= height /\
  (ci.1.1.1 + w <= cj.1.1.1 \/ cj.1.1.1 + w <= ci.1.1.1 \/ ci.1.1.2 + h <= cj.1.1.2).
Proof.
  intros Hij Hjn Hw Hh. cbv zeta. unfold dashCell, gridRows, GRID_COLS in *. cbn [fst snd].
  rewrite (Z.quot_div_nonneg (n + 3 - 1) 3) in * by lia.
  rewrite (Z.quot_div_nonneg i 3), (Z.quot_div_nonneg j 3),
    (Z.quot_div_nonneg width 3) by lia.
  rewrite !Z.rem_mod_nonneg by lia.
  set (rows := Z.max 1 ((n + 3 - 1) / 3)) in *.
  assert (Hrows : 1 <= rows) by (unfold rows; lia).
  assert (Hrh : rows <= height)
    by (unfold rows; Z.to_euclidean_division_equations; lia).
  rewrite (Z.quot_div_nonneg height rows) by lia.
  set (h := height / rows).
  set (w := width / 3).
  assert (Hhpos : 0 < h) by (unfold h; apply Z.div_str_pos; lia).
  assert (Hhle : rows * h <= height) by (unfold h; apply Z.mul_div_le; lia).
  assert (Hwpos : 0 < w) by (unfold w; apply Z.div_str_pos; lia).
  assert (Hwle : 3 * w <= width) by (unfold w; apply Z.mul_div_le; lia).
  assert (Hri : i / 3 + 1 <= rows)
    by (unfold rows; Z.to_euclidean_division_equations; lia).
  assert (Hrj : j / 3 + 1 <= rows)
    by (unfold rows; Z.to_euclidean_division_equations; lia).
  assert (Hci : 0 <= i mod 3 < 3) by (apply Z.mod_pos_bound; lia).
  assert (Hcj : 0 <= j mod 3 < 3) by (apply Z.mod_pos_bound; lia).
  assert (Hqi : 0 <= i / 3) by (apply Z.div_pos; lia).
  assert (Hqj : 0 <= j / 3) by (apply Z.div_pos; lia).
  assert (Hsep : i / 3 + 1 <= j / 3 \/ (i / 3 = j / 3 /\ i mod 3 + 1 <= j mod 3))
    by (Z.to_euclidean_division_equations; lia).
  repeat split; try reflexivity; nia.
Qed.

Lemma dashboard_cells_disjoint_example :
  (dashCell 240 135 12 4).1.1.1 + 80 <= (dashCell 240 135 12 5).1.1.1 \/
  (dashCell 240 135 12 5).1.1.1 + 80 <= (dashCell 240 135 12 4).1.1.1 \/
  (dashCell 240 135 12 4).1.1.2 + 33 <= (dashCell 240 135 12 5).1.1.2.
Proof.
  refine (proj2 (proj2 (proj2 (proj2 (proj2 (proj2 (proj2 (proj2 (proj2 (proj2
            (proj2 (proj2 (dashboard_cells_disjoint 240 135 12 4 5 _ _ _ _)))))))))))));
    first [ lia | vm_compute; discriminate ].
Defined.

(** ** Registry: lookup, insertion and deletion *)

Lemma lookup_total_beyond (tg : list Target) (j : nat) :
  (length tg <= j)%nat -> tg !!! j = Target0.
Proof.
  intros H. rewrite list_lookup_total_alt, (lookup_ge_None_2 tg j H). reflexivity.
Qed.

Lemma findFrom_None (tg : list Target) (key : string) (n i : nat) :
  findFrom tg key i n = None <->
  forall j : nat, (i <= j < i + n)%nat -> name (tg !!! j) <> key.
Proof.
  revert i. induction n as [|n IH]; intros i; cbn [findFrom].
  - split; [intros _ j Hj; lia | reflexivity].
  - destruct (String.eqb_spec (name (tg !!! i)) key) as [Heq|Hne].
    + split; [discriminate|]. intros H. exfalso. apply (H i); [lia | exact Heq].
    + rewrite IH. split.
      * intros H j Hj. destruct (Nat.eq_dec j i) as [->|Hji]; [exact Hne|].
        apply H. lia.
      * intros H j Hj. apply H. lia.
Qed.

(** [findFrom] is determined by being the first match. *)
Lemma findFrom_Some (tg : list Target) (key : string) (n i idx : nat) :
  findFrom tg key i n = Some idx <->
  (i <= idx < i + n)%nat /\ name (tg !!! idx) = key /\
  (forall j : nat, (i <= j < idx)%nat -> name (tg !!! j) <> key).
Proof.
  split; [apply findFrom_first|].
  intros (Hr & Hnm & Hfirst).
  destruct (findFrom tg key i n) as [idx'|] eqn:Hf.
  - destruct (findFrom_first _ _ _ _ _ Hf) as (Hr' & Hnm' & Hfirst').
    f_equal. destruct (Nat.lt_trichotomy idx' idx) as [Hlt | [Heq | Hgt]].
    + exfalso. apply (Hfirst idx'); [lia | exact Hnm'].
    + exact Heq.
    + exfalso. apply (Hfirst' idx); [lia | exact Hnm].
  - exfalso. rewrite findFrom_None in Hf. apply (Hf idx); [lia | exact Hnm].
Qed.

(** The compaction loop, element by element: the [n] elements from
    index [i] on take the value of their right neighbour, the others
    keep theirs. *)
Lemma shiftDown_lookup (n i j : nat) (tg : list Target) :
  shiftDown tg i n !!! j =
    if (i <=? j)%nat && (j <? i + n)%nat then tg !!! S j else tg !!! j.
Proof.
  revert i tg. induction n as [|n IH]; intros i tg; cbn [shiftDown].
  - destruct (Nat.leb_spec i j), (Nat.ltb_spec j (i + 0)); cbn; first [reflexivity | lia].
  - rewrite IH.
    destruct (Nat.leb_spec (S i) j) as [Hsi|Hsi];
      destruct (Nat.ltb_spec j (S i + n)) as [Hn|Hn]; cbn [andb].
    + rewrite list_lookup_total_insert_ne by lia.
      destruct (Nat.leb_spec i j), (Nat.ltb_spec j (i + S n)); cbn;
        first [reflexivity | lia].
    + rewrite list_lookup_total_insert_ne by lia.
      destruct (Nat.leb_spec i j), (Nat.ltb_spec j (i + S n)); cbn;
        first [reflexivity | lia].
    + destruct (Nat.eq_dec j i) as [->|Hji].
      * destruct (Nat.leb_spec i i), (Nat.ltb_spec i (i + S n)); cbn; try lia.
        destruct (Nat.lt_ge_cases i (length tg)) as [Hlt|Hge].
        -- apply list_lookup_total_insert_eq. exact Hlt.
        -- rewrite list_insert_ge by exact Hge.
           rewrite !lookup_total_beyond by lia. reflexivity.
      * rewrite list_lookup_total_insert_ne by lia.
        destruct (Nat.leb_spec i j), (Nat.ltb_spec j (i + S n)); cbn;
          first [reflexivity | lia].
    + lia.
Qed.

(** Deletion.  When no registered target bears the name,
    [delTargetByName] returns [false] and the registry as it was.
    Otherwise it removes the first target bearing the name: the count
    drops by one, the targets before it stay in place, and those after
    it move down by one place, in order. *)
Theorem delete_compacts (key : string) (r : Registry) :
  match findByName key r with
  | None => delTargetByName key r = (false, r)
  | Some idx =>
      (idx < N_TGT r)%nat /\ name (tgts r !!! idx) = key /\
      (forall j : nat, (j < idx)%nat -> name (tgts r !!! j) <> key) /\
      (delTargetByName key r).1 = true /\
      N_TGT (delTargetByName key r).2 = (N_TGT r - 1)%nat /\
      (forall j : nat,
         tgts (delTargetByName key r).2 !!! j =
           if (idx <=? j)%nat && (j <? N_TGT r - 1)%nat
           then tgts r !!! S j else tgts r !!! j)
  end.
Proof.
  unfold delTargetByName.
  destruct (findByName key r) as [idx|] eqn:Hf; [|reflexivity].
  unfold findByName in Hf.
  destruct (findFrom_first _ _ _ _ _ Hf) as (Hr & Hnm & Hfirst).
  cbn [fst snd tgts N_TGT].
  split; [lia|]. split; [exact Hnm|]. split; [intros j Hj; apply Hfirst; lia|].
  split; [reflexivity|]. split; [reflexivity|].
  intros j. rewrite shiftDown_lookup.
  replace (idx + (N_TGT r - 1 - idx))%nat with (N_TGT r - 1)%nat by lia.
  reflexivity.
Qed.

(** After the deletion of the first target named [key], every other
    name is found where it was, or one place lower when it was behind
    the deleted target; and [key] itself is no longer found when it was
    borne by one registered target only. *)
Theorem delete_then_find (key : string) (r : Registry) (idx : nat) :
  findByName key r = Some idx ->
  let r' := (delTargetByName key r).2 in
  (forall key' : string, key' <> key ->
     findByName key' r' =
       match findByName key' r with
       | Some m => Some (if (m <? idx)%nat then m else Nat.pred m)
       | None => None
       end) /\
  ((forall j : nat, (j < N_TGT r)%nat -> j <> idx -> name (tgts r !!! j) <> key) ->
   findByName key r' = None).
Proof.
  intros Hf. cbv zeta.
  unfold delTargetByName. rewrite Hf. cbn [snd].
  unfold findByName in *. cbn [tgts N_TGT].
  destruct (findFrom_first _ _ _ _ _ Hf) as (Hr & Hnm & Hfirst).
  assert (Hlook : forall j : nat,
             shiftDown (tgts r) idx (N_TGT r - 1 - idx) !!! j =
               if (idx <=? j)%nat && (j <? N_TGT r - 1)%nat
               then tgts r !!! S j else tgts r !!! j).
  { intros j. rewrite shiftDown_lookup.
    replace (idx + (N_TGT r - 1 - idx))%nat with (N_TGT r - 1)%nat by lia.
    reflexivity. }
  split.
  - intros key' Hne.
    destruct (findFrom (tgts r) key' 0 (N_TGT r)) as [m|] eqn:Hm.
    + destruct (findFrom_first _ _ _ _ _ Hm) as (Hmr & Hmn & Hmf).
      assert (Hmi : m <> idx) by (intros ->; congruence).
      apply findFrom_Some.
      destruct (Nat.ltb_spec m idx) as [Hlt|Hge].
      * split; [lia|]. split.
        -- rewrite Hlook.
           destruct (Nat.leb_spec idx m); [lia|]. exact Hmn.
        -- intros j Hj. rewrite Hlook.
           destruct (Nat.leb_spec idx j); [lia|]. apply Hmf. lia.
      * split; [lia|]. split.
        -- rewrite Hlook.
           destruct (Nat.leb_spec idx (Nat.pred m)); [|lia].
           destruct (Nat.ltb_spec (Nat.pred m) (N_TGT r - 1)); [|lia].
           cbn. replace (S (Nat.pred m)) with m by lia. exact Hmn.
        -- intros j Hj. rewrite Hlook.
           destruct (Nat.leb_spec idx j);
             destruct (Nat.ltb_spec j (N_TGT r - 1)); cbn; try lia;
             apply Hmf; lia.
    + apply findFrom_None. rewrite findFrom_None in Hm.
      intros j Hj. rewrite Hlook.
      destruct (Nat.leb_spec idx j);
        destruct (Nat.ltb_spec j (N_TGT r - 1)); cbn; apply Hm; lia.
  - intros Huniq. apply findFrom_None. intros j Hj. rewrite Hlook.
    destruct (Nat.leb_spec idx j);
      destruct (Nat.ltb_spec j (N_TGT r - 1)); cbn; apply Huniq; lia.
Qed.

Lemma delete_then_find_example :
  findByName "DNS2" (delTargetByName "DNS1" (reg boot)).2 = Some 1%nat /\
  findByName "DNS1" (delTargetByName "DNS1" (reg boot)).2 = None.
Proof.
  destruct (delete_then_find "DNS1" (reg boot) 1%nat eq_refl) as [H1 H2].
  split.
  - rewrite (H1 "DNS2") by discriminate. reflexivity.
  - apply H2. intros j Hj Hne.
    destruct j as [|[|[|j]]]; first [discriminate | congruence | cbn in Hj; lia].
Defined.

Lemma findFrom_ext (tg tg' : list Target) (key : string) (n i : nat) :
  (forall j : nat, (i <= j < i + n)%nat -> name (tg' !!! j) = name (tg !!! j)) ->
  findFrom tg' key i n = findFrom tg key i n.
Proof.
  revert i. induction n as [|n IH]; intros i H; cbn [findFrom]; [reflexivity|].
  rewrite (H i) by lia. rewrite IH; [reflexivity|].
  intros j Hj. apply H. lia.
Qed.

Lemma findFrom_snoc (tg : list Target) (key : string) (n i : nat) :
  findFrom tg key i (S n) =
    match findFrom tg key i n with
    | Some x => Some x
    | None => if String.eqb (name (tg !!! (i + n)%nat)) key
              then Some (i + n)%nat else None
    end.
Proof.
  revert i. induction n as [|n IH]; intros i.
  - cbn [findFrom]. rewrite Nat.add_0_r.
    destruct (String.eqb (name (tg !!! i)) key); reflexivity.
  - cbn [findFrom] in *. destruct (String.eqb (name (tg !!! i)) key); [reflexivity|].
    rewrite (IH (S i)). replace (S i + n)%nat with (i + S n)%nat by lia.
    reflexivity.
Qed.

(** Insertion then lookup.  After a successful [addTarget], a name
    already registered is found where it was (so a second target of the
    same name is shadowed by the first), the 15-character prefix of the
    new name is otherwise found at the new last place, and any other
    name is still not found.  The entry stored there holds the prefixes
    of name and host and the interval given. *)
Theorem add_then_find (nm hst : string) (itvl : Z) (r : Registry) :
  (N_TGT r < MAX_TGT)%nat -> (N_TGT r < length (tgts r))%nat ->
  let r' := (addTarget nm hst itvl r).2 in
  (addTarget nm hst itvl r).1 = true /\
  N_TGT r' = S (N_TGT r) /\
  name (tgts r' !!! N_TGT r) = substring 0 15 nm /\
  host (tgts r' !!! N_TGT r) = substring 0 47 hst /\
  intervalMs (tgts r' !!! N_TGT r) = itvl /\
  (forall j : nat, j <> N_TGT r -> tgts r' !!! j = tgts r !!! j) /\
  (forall key : string,
     findByName key r' =
       match findByName key r with
       | Some i => Some i
       | None => if String.eqb (substring 0 15 nm) key then Some (N_TGT r) else None
       end).
Proof.
  intros Hroom Hlen. cbv zeta. unfold addTarget.
  destruct (Nat.leb_spec MAX_TGT (N_TGT r)); [lia|].
  cbn [fst snd tgts N_TGT]. unfold strncpy.
  rewrite list_lookup_total_insert_eq by exact Hlen.
  repeat split.
  - intros j Hj. apply list_lookup_total_insert_ne. lia.
  - intros key. unfold findByName. cbn [tgts N_TGT].
    rewrite findFrom_snoc. cbn [Nat.add].
    rewrite list_lookup_total_insert_eq by exact Hlen. cbn [name].
    rewrite (findFrom_ext (tgts r)); [reflexivity|].
    intros j Hj. rewrite list_lookup_total_insert_ne by lia. reflexivity.
Qed.

Lemma add_then_find_example :
  findByName "gateway-of-the-" (addTarget "gateway-of-the-lab" "10.0.0.1" 6000 (reg boot)).2
  = Some 3%nat.
Proof.
  destruct (add_then_find "gateway-of-the-lab" "10.0.0.1" 6000 (reg boot))
    as (_ & _ & _ & _ & _ & _ & H); [vm_compute; lia | vm_compute; lia |].
  rewrite H. reflexivity.
Defined.

(** Deletion then insertion.  [addTarget] does not reset
    [lastChangeMs] and [downStartMs]: the target added after a deletion
    takes the place that the last registered target occupied before the
    deletion, is up, and carries that target's two time stamps. *)
Theorem add_after_delete_keeps_stamps
    (key nm hst : string) (itvl : Z) (r : Registry) (idx : nat) :
  findByName key r = Some idx ->
  (N_TGT r <= MAX_TGT)%nat -> (N_TGT r <= length (tgts r))%nat ->
  let r1 := (delTargetByName key r).2 in
  let r2 := (addTarget nm hst itvl r1).2 in
  let last := tgts r !!! (N_TGT r - 1)%nat in
  let new := tgts r2 !!! (N_TGT r - 1)%nat in
  N_TGT r2 = N_TGT r /\
  name new = substring 0 15 nm /\ isDown new = false /\
  consecOk new = 0 /\ consecFail new = 0 /\
  lastChangeMs new = lastChangeMs last /\
  downStartMs new = downStartMs last.
Proof.
  intros Hf Hmax Hlen. cbv zeta.
  unfold findByName in Hf.
  destruct (findFrom_first _ _ _ _ _ Hf) as (Hr & _ & _).
  unfold delTargetByName, findByName. rewrite Hf. cbn [snd].
  unfold addTarget. cbn [N_TGT tgts].
  destruct (Nat.leb_spec MAX_TGT (N_TGT r - 1)); [lia|].
  cbn [snd N_TGT tgts].
  rewrite list_lookup_total_insert_eq by (rewrite shiftDown_length; lia).
  rewrite shiftDown_lookup.
  destruct (Nat.ltb_spec (N_TGT r - 1) (idx + (N_TGT r - 1 - idx))); [lia|].
  rewrite andb_false_r. cbn -[substring].
  repeat split; lia.
Qed.

Lemma add_after_delete_keeps_stamps_example :
  let r := mkRegistry (<[2%nat := set_downStartMs 7000 (set_isDown true
                                    (tgts (reg boot) !!! 2%nat))]> (tgts (reg boot))) 3 in
  downStartMs (tgts (addTarget "new" "10.0.0.9" 6000 (delTargetByName "DNS2" r).2).2
                 !!! 2%nat) = 7000.
Proof.
  cbv zeta.
  destruct (add_after_delete_keeps_stamps "DNS2" "new" "10.0.0.9" 6000
              (mkRegistry (<[2%nat := set_downStartMs 7000 (set_isDown true
                                         (tgts (reg boot) !!! 2%nat))]> (tgts (reg boot))) 3)
              2%nat)
    as (_ & _ & _ & _ & _ & _ & H);
    [reflexivity | vm_compute; lia | vm_compute; lia |].
  exact H.
Defined.

(** ** What checks and the scheduler leave alone *)

(** A check changes neither the identity of a target nor its schedule. *)
Lemma checkOne_identity (e : CheckEnv) (t : Target) (a : Alarm) :
  name (checkOne e t a).1.1 = name t /\
  host (checkOne e t a).1.1 = host t /\
  intervalMs (checkOne e t a).1.1 = intervalMs t /\
  lastCheckMs (checkOne e t a).1.1 = lastCheckMs t.
Proof.
  destruct (checkOne_cases e) as [H | (avg & Hw & Hp)].
  - rewrite (checkOne_failure e t a H).
    destruct (negb (isDown t) && (FAIL_TH <=? u8 (consecFail t + 1)));
      repeat split; reflexivity.
  - rewrite (checkOne_success e t a avg Hw Hp).
    destruct (isDown t && (REC_TH <=? u8 (consecOk t + 1)));
      repeat split; reflexivity.
Qed.

Lemma scheduleOne_frame (now : Z) (e : CheckEnv) (i j : nat) (s : State) :
  let t := tgts (reg s) !!! j in
  let t' := tgts (reg (scheduleOne now e i s).1) !!! j in
  N_TGT (reg (scheduleOne now e i s).1) = N_TGT (reg s) /\
  length (tgts (reg (scheduleOne now e i s).1)) = length (tgts (reg s)) /\
  name t' = name t /\ host t' = host t /\ intervalMs t' = intervalMs t /\
  (lastCheckMs t' = lastCheckMs t \/ lastCheckMs t' = now) /\
  (j <> i \/ (intervalMs t <=? u32 (now - lastCheckMs t)) = false -> t' = t) /\
  (j = i -> (j < length (tgts (reg s)))%nat ->
   (intervalMs t <=? u32 (now - lastCheckMs t)) = true -> lastCheckMs t' = now).
Proof.
  cbv zeta. unfold scheduleOne.
  destruct (intervalMs (tgts (reg s) !!! i) <=?
            u32 (now - lastCheckMs (tgts (reg s) !!! i))) eqn:Hdue.
  - pose proof (checkOne_identity e (set_lastCheckMs now (tgts (reg s) !!! i)) (alarm s))
      as (Hn & Hh & Hi & Hl).
    destruct (checkOne e (set_lastCheckMs now (tgts (reg s) !!! i)) (alarm s))
      as [[t1 a1] out]. cbn [fst snd reg tgts N_TGT] in *.
    rewrite length_insert.
    destruct (Nat.eq_dec j i) as [->|Hji].
    + destruct (Nat.lt_ge_cases i (length (tgts (reg s)))) as [Hlt|Hge].
      * rewrite list_lookup_total_insert_eq by exact Hlt.
        repeat split; try assumption; [right; exact Hl | | intros _ _ _; exact Hl].
        intros [Hne | Hnot]; [contradiction | congruence].
      * rewrite list_insert_ge by exact Hge.
        repeat split; try reflexivity; [left; reflexivity | intros _ Hlt; lia].
    + rewrite list_lookup_total_insert_ne by lia.
      repeat split; try reflexivity; [left; reflexivity | intros Heq; contradiction].
  - cbn [fst]. repeat split; try reflexivity; [left; reflexivity |].
    intros -> _ Htrue. congruence.
Qed.

Lemma schedulerFrom_frame (now : Z) (es : nat -> CheckEnv) (n i j : nat) (s : State) :
  let t := tgts (reg s) !!! j in
  let t' := tgts (reg (schedulerFrom now es i n s).1) !!! j in
  N_TGT (reg (schedulerFrom now es i n s).1) = N_TGT (reg s) /\
  length (tgts (reg (schedulerFrom now es i n s).1)) = length (tgts (reg s)) /\
  name t' = name t /\ host t' = host t /\ intervalMs t' = intervalMs t /\
  (~ (i <= j < i + n)%nat \/ (intervalMs t <=? u32 (now - lastCheckMs t)) = false ->
   t' = t) /\
  ((i <= j < i + n)%nat -> (j < length (tgts (reg s)))%nat ->
   (intervalMs t <=? u32 (now - lastCheckMs t)) = true -> lastCheckMs t' = now).
Proof.
  cbv zeta. revert i s.
  induction n as [|n IH]; intros i s; cbn [schedulerFrom].
  - cbn [fst]. repeat split; try reflexivity. intros Hr; lia.
  - pose proof (scheduleOne_frame now (es i) i j s) as H1. cbv zeta in H1.
    destruct H1 as (N1 & L1 & Hn1 & Hh1 & Hi1 & Hl1 & Hsame1 & Hdue1).
    destruct (scheduleOne now (es i) i s) as [s1 out1]. cbn [fst] in *.
    specialize (IH (S i) s1).
    destruct IH as (N2 & L2 & Hn2 & Hh2 & Hi2 & Hsame2 & Hdue2).
    destruct (schedulerFrom now es (S i) n s1) as [s2 out2]. cbn [fst] in *.
    split; [congruence|]. split; [congruence|]. split; [congruence|].
    split; [congruence|]. split; [congruence|]. split.
    + intros Hcase.
      assert (E1 : tgts (reg s1) !!! j = tgts (reg s) !!! j).
      { apply Hsame1. destruct Hcase as [Hout | Hnot]; [left; lia | right; exact Hnot]. }
      rewrite Hsame2; [exact E1|].
      rewrite E1. destruct Hcase as [Hout | Hnot]; [left; lia | right; exact Hnot].
    + intros Hin Hlen Hdue.
      destruct (Nat.eq_dec j i) as [Hji|Hji].
      * rewrite Hsame2 by (left; lia). apply Hdue1; assumption.
      * assert (E1 : tgts (reg s1) !!! j = tgts (reg s) !!! j)
          by (apply Hsame1; left; exact Hji).
        apply Hdue2; [lia | lia | rewrite E1; exact Hdue].
Qed.

(** The monitoring loop changes neither the number of targets nor the
    name, host or interval of any; it leaves exactly as they were the
    elements of [tgts] beyond [N_TGT] and the targets that are not due;
    and a registered target that is due has [lastCheckMs] set to the
    clock value read before the loop. *)
Theorem scheduler_frame (now : Z) (es : nat -> CheckEnv) (s : State) (j : nat) :
  let t := tgts (reg s) !!! j in
  let t' := tgts (reg (scheduler now es s).1) !!! j in
  let due := intervalMs t <=? u32 (now - lastCheckMs t) in
  N_TGT (reg (scheduler now es s).1) = N_TGT (reg s) /\
  name t' = name t /\ host t' = host t /\ intervalMs t' = intervalMs t /\
  ((N_TGT (reg s) <= j)%nat \/ due = false -> t' = t) /\
  ((j < N_TGT (reg s))%nat -> (j < length (tgts (reg s)))%nat -> due = true ->
   lastCheckMs t' = now).
Proof.
  cbv zeta. unfold scheduler.
  pose proof (schedulerFrom_frame now es (N_TGT (reg s)) 0 j s) as H. cbv zeta in H.
  destruct H as (HN & _ & Hn & Hh & Hi & Hsame & Hdue).
  split; [exact HN|]. split; [exact Hn|]. split; [exact Hh|]. split; [exact Hi|].
  split.
  - intros [Hout | Hnot]; apply Hsame; [left; lia | right; exact Hnot].
  - intros Hj Hlen Hd. apply Hdue; [lia | exact Hlen | exact Hd].
Qed.

Lemma scheduler_frame_example :
  lastCheckMs (tgts (reg (scheduler 5000 (fun _ => offlineCheck 5000) boot).1) !!! 0%nat)
  = 5000.
Proof.
  refine (proj2 (proj2 (proj2 (proj2 (proj2
            (scheduler_frame 5000 (fun _ => offlineCheck 5000) boot 0%nat))))) _ _ _);
    first [ vm_compute; lia | vm_compute; reflexivity ].
Defined.

(** ** Names and hosts fit their arrays *)

Lemma substring_length_le (n : nat) (s : string) :
  (String.length (substring 0 n s) <= n)%nat.
Proof.
  revert s. induction n as [|n IH]; intros s.
  - destruct s; cbn; lia.
  - destruct s as [|c s]; cbn; [lia|]. specialize (IH s). lia.
Qed.

Lemma fitsArrays_same (t u : Target) :
  name u = name t -> host u = host t -> fitsArrays t -> fitsArrays u.
Proof. unfold fitsArrays. intros -> ->. tauto. Qed.

Lemma fitsArrays_Target0 : fitsArrays Target0.
Proof. unfold fitsArrays; cbn; lia. Qed.

Lemma fitsArrays_lookup_total (l : list Target) (i : nat) :
  Forall fitsArrays l -> fitsArrays (l !!! i).
Proof.
  intros Hl. rewrite list_lookup_total_alt.
  destruct (l !! i) as [t|] eqn:Hi; cbn.
  - exact (Forall_lookup_1 _ _ _ _ Hl Hi).
  - apply fitsArrays_Target0.
Qed.

Lemma addDefaultTargets_fits (r : Registry) :
  Forall fitsArrays (tgts r) -> Forall fitsArrays (tgts (addDefaultTargets r)).
Proof.
  intros Hr. unfold addDefaultTargets. cbn [tgts].
  repeat (apply Forall_insert; [| split; vm_compute; lia]).
  exact Hr.
Qed.

Lemma addTarget_fits (nm hst : string) (itvl : Z) (r : Registry) :
  Forall fitsArrays (tgts r) -> Forall fitsArrays (tgts (addTarget nm hst itvl r).2).
Proof.
  intros Hr. unfold addTarget.
  destruct (MAX_TGT <=? N_TGT r)%nat; [exact Hr|]. cbn [snd tgts].
  apply Forall_insert; [exact Hr|].
  split; cbn [name host set_name set_host set_intervalMs set_lastAvgRtt set_isDown
              set_consecFail set_consecOk set_lastCheckMs]; unfold strncpy;
    apply substring_length_le.
Qed.

Lemma shiftDown_fits (n i : nat) (tg : list Target) :
  Forall fitsArrays tg -> Forall fitsArrays (shiftDown tg i n).
Proof.
  revert i tg. induction n as [|n IH]; intros i tg Htg; cbn; [exact Htg|].
  apply IH, Forall_insert; [exact Htg | apply fitsArrays_lookup_total, Htg].
Qed.

Section RunFits.

Variable deserializeJson : string -> option json.

Lemma handleCommandUDP_fits (packet : option string) (r : Registry) :
  Forall fitsArrays (tgts r) ->
  Forall fitsArrays (tgts (handleCommandUDP deserializeJson packet r)).
Proof.
  intros Hr. unfold handleCommandUDP.
  destruct packet as [data|]; [|exact Hr].
  destruct (String.length (substring 0 511 data) =? 0)%nat; [exact Hr|].
  destruct (deserializeJson (substring 0 511 data)) as [doc|]; [|exact Hr].
  repeat match goal with
         | |- context [if ?c then _ else _] => destruct c
         end; try exact Hr.
  - apply addTarget_fits, Hr.
  - unfold delTargetByName. destruct (findByName _ r); [|exact Hr].
    cbn [snd tgts]. apply shiftDown_fits, Hr.
  - unfold setIntervalByName. destruct (findByName _ r) as [idx|]; [|exact Hr].
    cbn [snd tgts]. apply Forall_insert; [exact Hr|].
    eapply fitsArrays_same; [..| apply fitsArrays_lookup_total, Hr]; reflexivity.
Qed.

Lemma schedulerFrom_fits (now : Z) (es : nat -> CheckEnv) (n i : nat) (s : State) :
  Forall fitsArrays (tgts (reg s)) ->
  Forall fitsArrays (tgts (reg (schedulerFrom now es i n s).1)).
Proof.
  revert i s. induction n as [|n IH]; intros i s Hs; cbn [schedulerFrom]; [exact Hs|].
  assert (H1 : Forall fitsArrays (tgts (reg (scheduleOne now (es i) i s).1))).
  { unfold scheduleOne.
    destruct (intervalMs (tgts (reg s) !!! i) <=?
              u32 (now - lastCheckMs (tgts (reg s) !!! i))); [|exact Hs].
    pose proof (checkOne_identity (es i) (set_lastCheckMs now (tgts (reg s) !!! i))
                  (alarm s)) as (Hn & Hh & _).
    destruct (checkOne (es i) (set_lastCheckMs now (tgts (reg s) !!! i)) (alarm s))
      as [[t1 a1] out]. cbn [fst snd reg tgts] in *.
    apply Forall_insert; [exact Hs|].
    eapply fitsArrays_same; [exact Hn | exact Hh |].
    eapply fitsArrays_same; [..| apply fitsArrays_lookup_total, Hs]; reflexivity. }
  destruct (scheduleOne now (es i) i s) as [s1 out1]. cbn [fst] in *.
  specialize (IH (S i) s1 H1).
  destruct (schedulerFrom now es (S i) n s1) as [s2 out2]. exact IH.
Qed.

Lemma run_fits (es : list LoopEnv) :
  Forall fitsArrays (tgts (reg (run deserializeJson es))).
Proof.
  unfold run. rewrite <- fold_left_rev_right.
  induction (rev es) as [|e l IH]; cbn [fold_right].
  - unfold boot. cbn [reg]. apply addDefaultTargets_fits.
    apply Forall_replicate, fitsArrays_Target0.
  - set (s := fold_right (fun e s => (loop deserializeJson e s).1) boot l) in *.
    unfold loop.
    destruct (alarmTick (millisAlarm e) (btnA e) (btnB e) (alarm s)) as [a1 out1].
    destruct (if btnA e then if alarmActive a1 then stopAlarm a1 else (a1, [])
              else (a1, [])) as [a2 out2].
    destruct (if btnB e then stopAlarm a2 else (a2, [])) as [a3 out3].
    unfold scheduler.
    set (s0 := mkState (handleCommandUDP deserializeJson (cmdPacket e) (reg s)) a3).
    pose proof (schedulerFrom_fits (millisSched e) (checkEnv e) (N_TGT (reg s0)) 0 s0
                  (handleCommandUDP_fits (cmdPacket e) (reg s) IH)) as H.
    destruct (schedulerFrom (millisSched e) (checkEnv e) 0 (N_TGT (reg s0)) s0)
      as [s1 out4].
    exact H.
Qed.

(** In every state the sketch can reach, the name of each target has
    at most 15 characters and its host at most 47.  A name of more than
    15 characters therefore matches no target: [del] and [set] with such
    a name change nothing, even just after [add] was given that very
    name (the target is registered under its first 15 characters). *)
Theorem long_names_never_match (es : list LoopEnv) (key : string) (itvl : Z) :
  (15 < String.length key)%nat ->
  let r := reg (run deserializeJson es) in
  Forall fitsArrays (tgts r) /\
  findByName key r = None /\
  delTargetByName key r = (false, r) /\
  setIntervalByName key itvl r = (false, r).
Proof.
  intros Hlong. cbv zeta. pose proof (run_fits es) as Hfit.
  assert (Hnone : findByName key (reg (run deserializeJson es)) = None).
  { unfold findByName. apply findFrom_None. intros j _ Heq.
    destruct (fitsArrays_lookup_total _ j Hfit) as [Hn _].
    rewrite Heq in Hn. lia. }
  split; [exact Hfit|]. split; [exact Hnone|].
  unfold delTargetByName, setIntervalByName. rewrite Hnone. split; reflexivity.
Qed.

End RunFits.

Lemma long_names_never_match_example :
  let r := reg (run (demoParse [jsonAddLong])
                  [pass 0 (Some (demoText jsonAddLong)) (offlineCheck 0)]) in
  N_TGT r = 4%nat /\ delTargetByName "gateway-of-the-lab" r = (false, r).
Proof.
  cbv zeta. split; [vm_compute; reflexivity|].
  refine (proj1 (proj2 (proj2
            (long_names_never_match (demoParse [jsonAddLong])
               [pass 0 (Some (demoText jsonAddLong)) (offlineCheck 0)]
               "gateway-of-the-lab" 0 _)))).
  vm_compute. lia.
Defined.

(** ** Commands: what is applied and what is ignored *)

Section MoreCommands.

Variable deserializeJson : string -> option json.

Lemma nonEmpty_true (s : string) : s <> "" -> nonEmpty s = true.
Proof.
  intros H. unfold nonEmpty. destruct (String.eqb_spec s ""); [contradiction | reflexivity].
Qed.

Lemma received_nonempty (data : string) :
  data <> "" -> (String.length (substring 0 511 data) =? 0)%nat = false.
Proof. intros H. destruct data as [|c data]; [contradiction | reflexivity]. Qed.

(** The interval of an [add] command.  With a non-empty name and host
    the command is handed to [addTarget]; the interval is 6000 ms when
    [itvl] is absent or does not fit a C++ [int], and otherwise the
    integer given, reduced modulo 2^32: an explicit 0 is accepted and a
    negative value wraps around. *)
Theorem add_command_interval (data nm hst : string) (doc : json) (r : Registry) :
  deserializeJson (substring 0 511 data) = Some doc -> data <> "" ->
  member doc "cmd" = Some (JString "add") ->
  member doc "name" = Some (JString nm) -> nm <> "" ->
  member doc "host" = Some (JString hst) -> hst <> "" ->
  let r' := handleCommandUDP deserializeJson (Some data) r in
  (member doc "itvl" = None -> r' = (addTarget nm hst 6000 r).2) /\
  (forall z : Z, member doc "itvl" = Some (JInt z) ->
     r' = (addTarget nm hst
             (if (-2147483648 <=? z) && (z <=? 2147483647) then u32 z else 6000) r).2).
Proof.
  intros Hdoc Hdata Hcmd Hnm Hne Hhst Hhe. cbv zeta.
  unfold handleCommandUDP.
  rewrite (received_nonempty data Hdata), Hdoc, Hcmd, Hnm, Hhst.
  cbn [orString]. change (String.eqb "add" "add") with true. cbv iota.
  rewrite (nonEmpty_true nm Hne), (nonEmpty_true hst Hhe). cbn [andb].
  split.
  - intros ->. reflexivity.
  - intros z ->. cbn [orInt].
    destruct ((-2147483648 <=? z) && (z <=? 2147483647)); reflexivity.
Qed.

(** Ignored input.  The registry is left exactly as it was when no
    datagram is pending, when the datagram is not JSON, when the command
    is none of [add], [del], [set], and when the name is missing, empty
    or not a string. *)
Theorem command_ignored (packet : option string) (r : Registry) :
  (forall (data : string) (doc : json),
     packet = Some data ->
     deserializeJson (substring 0 511 data) = Some doc ->
     (orString (member doc "cmd") "" <> "add" /\
      orString (member doc "cmd") "" <> "del" /\
      orString (member doc "cmd") "" <> "set") \/
     orString (member doc "name") "" = "") ->
  handleCommandUDP deserializeJson packet r = r.
Proof.
  intros H. unfold handleCommandUDP.
  destruct packet as [data|]; [|reflexivity].
  destruct (String.length (substring 0 511 data) =? 0)%nat; [reflexivity|].
  destruct (deserializeJson (substring 0 511 data)) as [doc|] eqn:Hdoc; [|reflexivity].
  destruct (H data doc eq_refl Hdoc) as [(Ha & Hd & Hs) | Hname].
  - destruct (String.eqb_spec (orString (member doc "cmd") "") "add"); [contradiction|].
    destruct (String.eqb_spec (orString (member doc "cmd") "") "del"); [contradiction|].
    destruct (String.eqb_spec (orString (member doc "cmd") "") "set"); [contradiction|].
    reflexivity.
  - rewrite Hname. change (nonEmpty "") with false. cbn [andb].
    repeat match goal with
           | |- context [if ?c then _ else _] => destruct c
           end; reflexivity.
Qed.

Section FromViewer.

Variable jsonToString : json -> string.

(** From the viewer to the probe.  When the text built by the viewer
    for a command is not empty and is read back by the probe as the
    document it was built from, [del] is applied as [delTargetByName],
    [set] with an interval from 1 to 2^31 - 1 as [setIntervalByName], and
    [add] (whatever the first argument of [jsonCmd]) with an interval
    that fits a C++ [int] as [addTarget], the interval reduced modulo
    2^32. *)
Theorem viewer_commands_apply (cmd nm hst : string) (itvl : Z) (r : Registry) :
  nm <> "" ->
  let carried (doc : json) : Prop :=
    jsonToString doc <> "" /\
    deserializeJson (substring 0 511 (jsonToString doc)) = Some doc in
  (carried (JObject [("cmd", JString "del"); ("name", JString nm)]) ->
   handleCommandUDP deserializeJson (Some (Viewer.jsonCmdDel jsonToString nm)) r
   = (delTargetByName nm r).2) /\
  (carried (JObject [("cmd", JString "set"); ("name", JString nm); ("itvl", JInt itvl)]) ->
   0 < itvl <= 2147483647 ->
   handleCommandUDP deserializeJson (Some (Viewer.jsonCmdSet jsonToString nm itvl)) r
   = (setIntervalByName nm itvl r).2) /\
  (carried (JObject [("cmd", JString "add"); ("name", JString nm);
                     ("host", JString hst); ("itvl", JInt itvl)]) ->
   hst <> "" -> -2147483648 <= itvl <= 2147483647 ->
   handleCommandUDP deserializeJson (Some (Viewer.jsonCmd jsonToString cmd nm hst itvl)) r
   = (addTarget nm hst (u32 itvl) r).2).
Proof.
  intros Hne. cbv zeta. pose proof (nonEmpty_true nm Hne) as Hnon.
  split; [|split].
  - intros [Htxt Hdoc]. unfold Viewer.jsonCmdDel, handleCommandUDP.
    rewrite (received_nonempty _ Htxt), Hdoc. cbn [member assoc orString].
    change (String.eqb "cmd" "cmd") with true. cbv iota.
    change (String.eqb "cmd" "name") with false.
    change (String.eqb "name" "name") with true. cbv iota. cbn [orString].
    change (String.eqb "del" "add") with false.
    change (String.eqb "del" "del") with true. cbv iota.
    rewrite Hnon. reflexivity.
  - intros [Htxt Hdoc] Hrange. unfold Viewer.jsonCmdSet, handleCommandUDP.
    rewrite (received_nonempty _ Htxt), Hdoc. cbn [member assoc orString orInt].
    change (String.eqb "cmd" "cmd") with true.
    change (String.eqb "cmd" "name") with false.
    change (String.eqb "name" "name") with true.
    change (String.eqb "cmd" "itvl") with false.
    change (String.eqb "name" "itvl") with false.
    change (String.eqb "itvl" "itvl") with true. cbv iota. cbn [orString orInt].
    change (String.eqb "set" "add") with false.
    change (String.eqb "set" "del") with false.
    change (String.eqb "set" "set") with true. cbv iota.
    assert (Hfit : (-2147483648 <=? itvl) && (itvl <=? 2147483647) = true).
    { apply andb_true_iff. split; apply Z.leb_le; lia. }
    rewrite Hfit, (u32_small itvl) by lia.
    assert (Hpos : (0 <? itvl) = true) by (apply Z.ltb_lt; lia).
    rewrite Hnon, Hpos. reflexivity.
  - intros [Htxt Hdoc] Hhe Hrange. unfold Viewer.jsonCmd, handleCommandUDP.
    rewrite (received_nonempty _ Htxt), Hdoc. cbn [member assoc orString orInt].
    change (String.eqb "cmd" "cmd") with true.
    change (String.eqb "cmd" "name") with false.
    change (String.eqb "name" "name") with true.
    change (String.eqb "cmd" "host") with false.
    change (String.eqb "name" "host") with false.
    change (String.eqb "host" "host") with true.
    change (String.eqb "cmd" "itvl") with false.
    change (String.eqb "name" "itvl") with false.
    change (String.eqb "host" "itvl") with false.
    change (String.eqb "itvl" "itvl") with true. cbv iota. cbn [orString orInt].
    change (String.eqb "add" "add") with true. cbv iota.
    assert (Hfit : (-2147483648 <=? itvl) && (itvl <=? 2147483647) = true).
    { apply andb_true_iff. split; apply Z.leb_le; lia. }
    rewrite Hfit, Hnon, (nonEmpty_true hst Hhe). reflexivity.
Qed.

End FromViewer.

End MoreCommands.

Lemma add_command_interval_example :
  intervalMs (tgts (handleCommandUDP (demoParse [jsonAddNoItvl])
                      (Some (demoText jsonAddNoItvl)) (reg boot)) !!! 3%nat) = 6000.
Proof.
  rewrite (proj1 (add_command_interval (demoParse [jsonAddNoItvl])
                    (demoText jsonAddNoItvl) "x" "10.0.0.1" jsonAddNoItvl (reg boot)
                    ltac:(vm_compute; reflexivity) ltac:(vm_compute; discriminate)
                    eq_refl eq_refl ltac:(discriminate) eq_refl ltac:(discriminate))
             eq_refl).
  reflexivity.
Defined.

Lemma command_ignored_example :
  handleCommandUDP (demoParse [jsonReboot]) (Some (demoText jsonReboot)) (reg boot)
  = reg boot.
Proof.
  apply command_ignored. intros data doc [= <-] Hdoc.
  vm_compute in Hdoc. injection Hdoc as <-.
  left. repeat split; discriminate.
Defined.

Lemma viewer_commands_apply_example :
  handleCommandUDP demoCommands (Some (Viewer.jsonCmdSet demoText "DNS1" 9000)) (reg boot)
  = (setIntervalByName "DNS1" 9000 (reg boot)).2.
Proof.
  refine (proj1 (proj2 (viewer_commands_apply demoCommands demoText "set" "DNS1" "" 9000
                          (reg boot) _)) _ _);
    [discriminate | split; [vm_compute; discriminate | vm_compute; reflexivity] | lia].
Defined.

(** ** Telemetry datagrams *)

Section Telemetry.

Variable serializeJson : json -> string.

(** What is sent.  Nothing without the Wi-Fi link; otherwise nothing
    (when [malloc] fails), one datagram, or one datagram per registered
    target, all to the broadcast address.  Every datagram goes to port
    5005 and none carries more than 1400 bytes; the per-target ones
    carry at most 256. *)
Theorem telemetry_datagrams_bounded (e : TelemEnv) (r : Registry) :
  let ps := sendTelemetryUDP serializeJson e r in
  Forall (fun p => dstPort p = 5005 /\ (String.length (payload p) <= 1400)%nat) ps /\
  (telemWifi e = false -> ps = []) /\
  (ps = [] \/
   ps = [mkPacket "192.168.11.255" 5005
           (serializeJson (telemetryDoc (telemMillis e) r))] \/
   (length ps = N_TGT r /\
    Forall (fun p => dstAddr p = "255.255.255.255" /\
                     (String.length (payload p) <= 256)%nat) ps)).
Proof.
  cbv zeta. unfold sendTelemetryUDP, measureJson.
  destruct (telemWifi e); cbn [negb];
    [|split; [constructor | split; [reflexivity | left; reflexivity]]].
  set (doc := telemetryDoc (telemMillis e) r).
  destruct (Nat.leb_spec (String.length (serializeJson doc)) 1400) as [Hfit|Hbig].
  - destruct (mallocOk e); cbn [negb];
      [|split; [constructor | split; [discriminate | left; reflexivity]]].
    rewrite substring_all by lia.
    split; [|split; [discriminate | right; left; reflexivity]].
    constructor; [|constructor]. cbn. split; [reflexivity | exact Hfit].
  - split; [|split; [discriminate | right; right; split]].
    + apply Forall_map, Forall_forall. intros i _. cbn. split; [reflexivity|].
      pose proof (substring_length_le 256
                    (serializeJson (itemDoc (itemMillis e i) (tgts r !!! i)))). lia.
    + rewrite length_map, length_seq. reflexivity.
    + apply Forall_map, Forall_forall. intros i _. cbn. split; [reflexivity|].
      apply substring_length_le.
Qed.

End Telemetry.

Section PerTarget.

Variable serializeJson : json -> string.
Variable parseJSONObject : string -> option json.
Variable parseInt : string -> option Z.
Variable parseLong : string -> option Z.
Variable parseDouble : string -> option F64.double.

(** The per-target path.  When the snapshot exceeds 1400 bytes the
    probe sends, for each registered target, a datagram holding that
    target alone.  If that datagram is within 256 bytes and reaches the
    viewer unchanged, the viewer then displays this one target and
    nothing else, whatever it displayed before: the viewer replaces its
    list, it does not merge. *)
Theorem per_target_datagram_replaces_display
    (e : TelemEnv) (r : Registry) (now : Z) (v : Viewer.View) (i : nat) :
  telemWifi e = true ->
  (1400 < measureJson serializeJson (telemetryDoc (telemMillis e) r))%nat ->
  (i < N_TGT r)%nat ->
  let doc := itemDoc (itemMillis e i) (tgts r !!! i) in
  (String.length (serializeJson doc) <= 256)%nat ->
  parseJSONObject (serializeJson doc) = Some doc ->
  let p := mkPacket "255.255.255.255" 5005 (serializeJson doc) in
  In p (sendTelemetryUDP serializeJson e r) /\
  Viewer.display (Viewer.readUdpNonBlocking parseJSONObject parseInt parseLong
                    parseDouble (Some (payload p)) now v)
  = [itemOf (tgts r !!! i)].
Proof.
  intros Hwifi Hbig Hi. cbv zeta. intros Hlen Hparse. split.
  - unfold sendTelemetryUDP. rewrite Hwifi. cbn [negb].
    destruct (Nat.leb_spec (measureJson serializeJson (telemetryDoc (telemMillis e) r))
                1400); [lia|].
    apply in_map_iff. exists i. split.
    + rewrite substring_all by exact Hlen. reflexivity.
    + apply in_seq. lia.
  - cbn [payload]. unfold Viewer.readUdpNonBlocking.
    rewrite substring_all by lia. rewrite Hparse. unfold itemDoc.
    change (Viewer.getJSONArray _ "items")
      with (Some (Some (map itemJson [tgts r !!! i]))).
    destruct (mergeItems_distinct parseInt parseDouble [tgts r !!! i]
                (Viewer.buildMap (Viewer.heap v) (Viewer.items v))
                (Viewer.heap v) (Viewer.heap v) [])
      as (hp' & new & Hrun & Hmap).
    + intros k r0. apply buildMap_names.
    + lia.
    + cbn. apply NoDup_singleton.
    + intros r0 [].
    + rewrite Hrun. cbn [app] in *. unfold Viewer.display.
      cbn [Viewer.heap Viewer.items]. rewrite Hmap. reflexivity.
Qed.

End PerTarget.

(** ** The viewer replaces its list *)

(** In a well-formed view the map built from the displayed list leads
    to objects of the heap. *)
Lemma buildMap_valid (hp : list Viewer.Item) (its : list nat)
    (k : option string) (r : nat) :
  Forall (fun r => (r < length hp)%nat) its ->
  Viewer.buildMap hp its !! k = Some r -> (r < length hp)%nat.
Proof.
  unfold Viewer.buildMap. intros Hits.
  assert (Hgen : forall (m : gmap (option string) nat),
             (forall k r, m !! k = Some r -> (r < length hp)%nat) ->
             forall k r,
               fold_left (fun m r => <[Viewer.name (hp !!! r) := r]> m) its m !! k
               = Some r -> (r < length hp)%nat).
  { induction Hits as [|r0 its Hr0 Hits IH]; intros m Hm k0 r1; cbn; [apply Hm|].
    apply IH. intros k2 r2. rewrite lookup_insert.
    case_decide as Hk; [intros [= <-]; exact Hr0 | apply Hm]. }
  apply Hgen. intros k0 r0. rewrite lookup_empty. discriminate.
Qed.

Section Replace.

Variable parseJSONObject : string -> option json.
Variable parseInt : string -> option Z.
Variable parseLong : string -> option Z.
Variable parseDouble : string -> option F64.double.

(** The loop of the reconciler over elements that can all be read, with
    pairwise distinct names. *)
Lemma mergeItems_replace (arr : list json) (its : list Viewer.Item)
    (mp : gmap (option string) nat) (hp0 hp : list Viewer.Item) (next : list nat) :
  Forall2 (fun x it => Viewer.readItem parseInt parseDouble x = Some it) arr its ->
  (forall k r, mp !! k = Some r ->
     (r < length hp0)%nat /\ Viewer.name (hp0 !!! r) = k) ->
  (length hp0 <= length hp)%nat ->
  NoDup (map Viewer.name its) ->
  (forall r, In r next ->
     (r < length hp)%nat /\
     forall it, In it its -> mp !! Viewer.name it <> Some r) ->
  exists (hp' : list Viewer.Item) (new : list nat),
    Viewer.mergeItems parseInt parseDouble arr mp hp next = (hp', Some (next ++ new)) /\
    map (fun r => hp' !!! r) (next ++ new) = map (fun r => hp !!! r) next ++ its /\
    Forall (fun r => (r < length hp')%nat) (next ++ new).
Proof.
  intros Hread Hmp. revert hp next.
  induction Hread as [|x it arr its Hx Hread IH]; intros hp next Hlen Hnd Hnext.
  - exists hp, []. cbn. rewrite !app_nil_r. repeat split.
    apply Forall_forall. intros r Hr. apply list_elem_of_In in Hr. apply (Hnext r Hr).
  - cbn [map Viewer.mergeItems]. rewrite Hx.
    cbn [map] in Hnd. apply NoDup_cons in Hnd. destruct Hnd as [Hfresh Hnd].
    rewrite list_elem_of_In in Hfresh.
    destruct (mp !! Viewer.name it) as [r0|] eqn:Hr0.
    + destruct (Hmp _ _ Hr0) as [Hr0lt Hname].
      destruct (IH (<[r0 := it]> hp) (next ++ [r0])) as (hp' & new & Hrun & Hmap & Hval).
      * rewrite length_insert. exact Hlen.
      * exact Hnd.
      * intros r Hr. rewrite length_insert. apply in_app_iff in Hr.
        destruct Hr as [Hr | [<- | []]].
        -- destruct (Hnext r Hr) as [Hlt Hno]. split; [exact Hlt|].
           intros it' Hit'. apply Hno. right. exact Hit'.
        -- split; [lia|]. intros it' Hit' Heq. apply Hfresh.
           destruct (Hmp _ _ Heq) as [_ Hname']. rewrite Hname in Hname'.
           rewrite Hname'. apply in_map. exact Hit'.
      * exists hp', (r0 :: new). rewrite <- app_assoc in Hrun, Hmap, Hval.
        cbn in Hrun, Hmap, Hval.
        split; [exact Hrun|]. split; [|exact Hval]. rewrite Hmap, map_app. cbn.
        rewrite list_lookup_total_insert_eq by lia.
        rewrite <- app_assoc. cbn. f_equal.
        apply map_ext_in. intros r Hr.
        apply list_lookup_total_insert_ne. intros <-.
        destruct (Hnext r0 Hr) as [_ Hno]. apply (Hno it); [left; reflexivity | exact Hr0].
    + assert (Hins : <[length hp := it]> (hp ++ [Viewer.newItem]) = hp ++ [it]).
      { rewrite insert_app_r_alt by lia. rewrite Nat.sub_diag. reflexivity. }
      rewrite Hins.
      destruct (IH (hp ++ [it]) (next ++ [length hp])) as (hp' & new & Hrun & Hmap & Hval).
      * rewrite length_app. cbn. lia.
      * exact Hnd.
      * intros r Hr. rewrite length_app. cbn. apply in_app_iff in Hr.
        destruct Hr as [Hr | [<- | []]].
        -- destruct (Hnext r Hr) as [Hlt Hno]. split; [lia|].
           intros it' Hit'. apply Hno. right. exact Hit'.
        -- split; [lia|]. intros it' Hit' Heq.
           destruct (Hmp _ _ Heq) as [Hlt _]. lia.
      * exists hp', (length hp :: new). rewrite <- app_assoc in Hrun, Hmap, Hval.
        cbn in Hrun, Hmap, Hval.
        split; [exact Hrun|]. split; [|exact Hval]. rewrite Hmap, map_app. cbn.
        rewrite list_lookup_total_middle by reflexivity.
        rewrite <- app_assoc. cbn. f_equal.
        apply map_ext_in. intros r Hr.
        apply lookup_total_app_l. apply (Hnext r Hr).
Qed.

(** Snapshot replacement.  Let the view be well formed and let the
    datagram parse into an object whose [items] member is an array of
    elements that can all be read, with pairwise distinct names.  Then
    the viewer displays exactly the items read, in the order of the
    array (entries not in the datagram are gone), the time stamp is the
    [ts] member or, failing that, the viewer's clock, and the view is
    well formed again. *)
Theorem snapshot_replaces_display
    (data : string) (now : Z) (v : Viewer.View)
    (jo : list (string * json)) (arr : list json) (its : list Viewer.Item) :
  viewWf v ->
  parseJSONObject (substring 0 2048 data) = Some (JObject jo) ->
  assoc "items" jo = Some (JArray arr) ->
  Forall2 (fun x it => Viewer.readItem parseInt parseDouble x = Some it) arr its ->
  NoDup (map Viewer.name its) ->
  let v' := Viewer.readUdpNonBlocking parseJSONObject parseInt parseLong parseDouble
              (Some data) now v in
  Viewer.display v' = its /\
  Viewer.lastUpdateTs v' = Viewer.getLongOr parseLong jo "ts" (s32 now) /\
  viewWf v'.
Proof.
  intros Hwf Hparse Hitems Hread Hnd. cbv zeta.
  unfold Viewer.readUdpNonBlocking. rewrite Hparse.
  unfold Viewer.getJSONArray. rewrite Hitems.
  destruct (mergeItems_replace arr its
              (Viewer.buildMap (Viewer.heap v) (Viewer.items v))
              (Viewer.heap v) (Viewer.heap v) [] Hread)
    as (hp' & new & Hrun & Hmap & Hval).
  - intros k r Hk. split; [exact (buildMap_valid _ _ _ _ Hwf Hk) |
                           exact (buildMap_names _ _ _ _ Hk)].
  - lia.
  - exact Hnd.
  - intros r [].
  - rewrite Hrun. cbn [app] in *. unfold Viewer.display, viewWf.
    cbn [Viewer.heap Viewer.items Viewer.lastUpdateTs].
    split; [exact Hmap|]. split; [reflexivity | exact Hval].
Qed.

End Replace.

Lemma snapshot_replaces_display_example :
  Viewer.display
    (demoRead [snapshotA] (demoText snapshotA)
       (Viewer.mkView [Viewer.mkItem (Some "old") (Some "h0") true F32.neg1] [0%nat] 5))
  = [Viewer.mkItem (Some "a") (Some "h1") false (F32.of_Z 1)].
Proof.
  refine (proj1 (snapshot_replaces_display (demoParse [snapshotA]) noNumber noNumber
                   noNumber (demoText snapshotA) 0
                   (Viewer.mkView [Viewer.mkItem (Some "old") (Some "h0") true F32.neg1]
                      [0%nat] 5)
                   [("ts", JInt 100);
                    ("items", JArray [JObject [("name", JString "a"); ("host", JString "h1");
                                               ("down", JInt 0);
                                               ("rtt", JFloat (F32.of_Z 1))]])]
                   [JObject [("name", JString "a"); ("host", JString "h1");
                             ("down", JInt 0); ("rtt", JFloat (F32.of_Z 1))]]
                   [Viewer.mkItem (Some "a") (Some "h1") false (F32.of_Z 1)]
                   _ _ _ _ _)).
  - repeat constructor.
  - vm_compute. reflexivity.
  - reflexivity.
  - repeat constructor.
  - cbn. apply NoDup_singleton.
Defined.

(** ** Colours on the probe and on the viewer *)

(** A target that has just been added is drawn green on the dashboard
    of the probe (it is up and has no failure pending) and yellow by the
    viewer (its rtt is -1), until its first check. *)
Theorem fresh_target_colours (nm hst : string) (itvl : Z) (r : Registry) :
  (N_TGT r < MAX_TGT)%nat -> (N_TGT r < length (tgts r))%nat ->
  let t := tgts (addTarget nm hst itvl r).2 !!! N_TGT r in
  dashFill t = GREEN /\ Viewer.cellColor (itemOf t) = YELLOW.
Proof.
  intros Hroom Hlen. cbv zeta. unfold addTarget.
  destruct (Nat.leb_spec MAX_TGT (N_TGT r)); [lia|]. cbn [snd tgts].
  rewrite list_lookup_total_insert_eq by exact Hlen.
  split; reflexivity.
Qed.

Lemma fresh_target_colours_example :
  dashFill (tgts (addTarget "gw" "10.0.0.1" 6000 (reg boot)).2 !!! 3%nat) = GREEN /\
  Viewer.cellColor (itemOf (tgts (addTarget "gw" "10.0.0.1" 6000 (reg boot)).2 !!! 3%nat))
  = YELLOW.
Proof.
  apply (fresh_target_colours "gw" "10.0.0.1" 6000 (reg boot)); vm_compute; lia.
Defined.

(** After a failed check the two agree: red when the target is DOWN,
    yellow when it is still up. *)
Theorem failed_check_colours_agree (e : CheckEnv) (t : Target) (a : Alarm) :
  hysteresis t -> checkFails e = true ->
  let t' := (checkOne e t a).1.1 in
  dashFill t' = Viewer.cellColor (itemOf t') /\
  dashFill t' = (if isDown t' then RED else YELLOW).
Proof.
  intros (Hok & Hfl & Hdn & Hup) He. cbv zeta.
  destruct (failed_check_step e t a He) as (_ & Hfail & Hdown & _).
  assert (Hrtt : lastAvgRtt (checkOne e t a).1.1 = F32.neg1).
  { rewrite (checkOne_failure e t a (checkFails_true e He)).
    destruct (negb (isDown t) && (FAIL_TH <=? u8 (consecFail t + 1))); reflexivity. }
  unfold dashFill, Viewer.cellColor, itemOf. cbn [Viewer.down Viewer.rtt].
  rewrite Hrtt. change (SFltb F32.neg1 F32.zero) with true. cbv iota.
  destruct (isDown (checkOne e t a).1.1) eqn:Hd; [split; reflexivity|].
  rewrite Hfail.
  destruct (isDown t) eqn:Hdt; [cbn in Hdown; congruence|].
  specialize (Hup eq_refl). unfold FAIL_TH in Hup.
  rewrite u8_small by lia.
  destruct (Z.ltb_spec 0 (consecFail t + 1)); [split; reflexivity | lia].
Qed.

Lemma failed_check_colours_agree_example :
  dashFill (checkOne (offlineCheck 0) Target0 (mkAlarm false 0 0 0)).1.1 = YELLOW.
Proof.
  rewrite (proj2 (failed_check_colours_agree (offlineCheck 0) Target0
                    (mkAlarm false 0 0 0) hysteresis_Target0 eq_refl)).
  reflexivity.
Defined.

Lemma telemetry_datagrams_bounded_example :
  sendTelemetryUDP demoText (mkTelemEnv false 1000 true (fun _ => 1000)) (reg boot) = [].
Proof.
  exact (proj1 (proj2 (telemetry_datagrams_bounded demoText
                         (mkTelemEnv false 1000 true (fun _ => 1000)) (reg boot)))
           eq_refl).
Defined.

Lemma per_target_datagram_replaces_display_example :
  let doc := itemDoc 1000 (tgts wideRegistry !!! 4%nat) in
  Viewer.display
    (Viewer.readUdpNonBlocking (spacedParse [doc]) noNumber noNumber noNumber
       (Some (demoSpaced doc)) 0
       (demoRead [snapshotA] (demoText snapshotA) emptyView))
  = [itemOf (tgts wideRegistry !!! 4%nat)].
Proof.
  cbv zeta.
  refine (proj2 (per_target_datagram_replaces_display demoSpaced
                   (spacedParse [itemDoc 1000 (tgts wideRegistry !!! 4%nat)])
                   noNumber noNumber noNumber telemAt1000 wideRegistry 0
                   (demoRead [snapshotA] (demoText snapshotA) emptyView) 4%nat
                   _ _ _ _ _)).
  - reflexivity.
  - apply Nat.ltb_lt. vm_compute. reflexivity.
  - apply Nat.ltb_lt. vm_compute. reflexivity.
  - apply Nat.leb_le. vm_compute. reflexivity.
  - vm_compute. reflexivity.
Defined.

(** ** Buttons and the clock *)

(** Button A always switches the screen.  [alarmTick] runs first in the
    pass and stops an active alarm on the same press, so the test of
    [alarmActive] that follows never holds: the press switches between
    dashboard and info screen whether or not an alarm was sounding. *)
Theorem button_A_always_toggles (e : LoopEnv) (a : Alarm) (ui : UIMode) :
  btnA e = true ->
  alarmActive (alarmTick (millisAlarm e) (btnA e) (btnB e) a).1 = false /\
  buttonA_uiMode e a ui = match ui with UI_DASH => UI_INFO | UI_INFO => UI_DASH end.
Proof.
  intros HA.
  assert (H1 : alarmActive (alarmTick (millisAlarm e) (btnA e) (btnB e) a).1 = false).
  { unfold alarmTick. destruct (alarmActive a) eqn:Hact; cbn -[u32 Z.leb]; [|exact Hact].
    destruct (ALARM_MAX_MS <=? u32 (millisAlarm e - alarmStartMs a)); [reflexivity|].
    rewrite HA. reflexivity. }
  split; [exact H1|]. unfold buttonA_uiMode. rewrite H1, HA. reflexivity.
Qed.

Lemma button_A_always_toggles_example :
  buttonA_uiMode (mkLoopEnv true false 2000 None 2000 (fun _ => offlineCheck 2000))
    (mkAlarm true 1000 1300 1) UI_DASH = UI_INFO.
Proof.
  exact (proj2 (button_A_always_toggles
                  (mkLoopEnv true false 2000 None 2000 (fun _ => offlineCheck 2000))
                  (mkAlarm true 1000 1300 1) UI_DASH eq_refl)).
Defined.

(** The test for a due check is exact across the wrap-around of
    [millis()]: when [elapsed] ms (less than 2^32) have passed since the
    last check, the target is checked if and only if [elapsed] has
    reached its interval. *)
Theorem check_due_across_wraparound
    (elapsed : Z) (e : CheckEnv) (i : nat) (s : State) :
  0 <= elapsed < 4294967296 ->
  let t := tgts (reg s) !!! i in
  let now := u32 (lastCheckMs t + elapsed) in
  (elapsed < intervalMs t -> scheduleOne now e i s = (s, [])) /\
  (intervalMs t <= elapsed -> (i < length (tgts (reg s)))%nat ->
   tgts (reg (scheduleOne now e i s).1) !!! i
   = (checkOne e (set_lastCheckMs now t) (alarm s)).1.1).
Proof.
  intros Hel. cbv zeta. unfold scheduleOne.
  rewrite (u32_elapsed (lastCheckMs (tgts (reg s) !!! i)) elapsed Hel).
  split.
  - intros Hlt. destruct (Z.leb_spec (intervalMs (tgts (reg s) !!! i)) elapsed);
      [lia | reflexivity].
  - intros Hge Hlen.
    destruct (Z.leb_spec (intervalMs (tgts (reg s) !!! i)) elapsed); [|lia].
    destruct (checkOne e
                (set_lastCheckMs (u32 (lastCheckMs (tgts (reg s) !!! i) + elapsed))
                   (tgts (reg s) !!! i)) (alarm s)) as [[t1 a1] out].
    cbn [fst snd reg tgts]. apply list_lookup_total_insert_eq. exact Hlen.
Qed.

Lemma check_due_across_wraparound_example :
  let s := mkState (mkRegistry (<[0%nat := set_lastCheckMs 4294967000
                                            (tgts (reg boot) !!! 0%nat)]> (tgts (reg boot))) 3)
             (alarm boot) in
  lastCheckMs (tgts (reg (scheduleOne 4704 (offlineCheck 4704) 0 s).1) !!! 0%nat) = 4704.
Proof.
  cbv zeta.
  pose proof (check_due_across_wraparound 5000 (offlineCheck 4704) 0
                (mkState (mkRegistry (<[0%nat := set_lastCheckMs 4294967000
                                                   (tgts (reg boot) !!! 0%nat)]>
                                        (tgts (reg boot))) 3) (alarm boot))
                ltac:(lia)) as H.
  cbv zeta in H. destruct H as [_ H].
  specialize (H ltac:(apply Z.leb_le; vm_compute; reflexivity) ltac:(vm_compute; lia)).
  apply (f_equal lastCheckMs) in H. vm_compute in H. vm_compute. exact H.
Defined.
